(** * NotificationService: connection manager, notification producers and
      order e-mail endpoints

    A shallow embedding of [src/main.py], [src/routers/notifications.py] and
    [src/routers/email_notifications.py].

    Python coroutines are modelled as computations in a state-and-exception
    monad: every [await] is a call that either returns or raises, and the
    outcome of the calls that leave the process (WebSocket frames, database
    steps, the auth service, SMTP) is read from an environment of oracles.
    One handler runs at a time: no other coroutine touches the shared state
    while a handler is suspended on an [await].  Calls of [logger] have no
    effect on the state and are left out. *)

From Stdlib Require Import ZArith String Ascii List Bool Lia Sorted.
From Stdlib Require Import PrimFloat Floats.SpecFloat Floats.FloatOps.
From Stdlib Require Import Floats.FloatAxioms.
From stdpp Require Import base gmap gmultiset sets list strings pretty.

Set Warnings "-register-all,-clear-no-such-hyp".
Local Open Scope string_scope.
Local Open Scope list_scope.
Local Open Scope Z_scope.

(** ** Exceptions and the handler monad *)

(** The two kinds of [Exception] the handlers distinguish: FastAPI's
    [HTTPException] and every other [Exception] (carried with its [str]). *)
Inductive exn : Type :=
  | HTTPException (status_code : Z) (detail : string)
  | PyException (msg : string).

(** [str(e)]: Starlette renders an [HTTPException] as "<status>: <detail>". *)
Definition str_exn (e : exn) : string :=
  match e with
  | HTTPException c d => pretty c +:+ ": " +:+ d
  | PyException msg => msg
  end.

Inductive outcome (A : Type) : Type :=
  | Returned (a : A)
  | Raised (e : exn).
Arguments Returned {A} a.
Arguments Raised {A} e.

Definition M (S A : Type) : Type := S -> outcome A * S.

Definition ret {S A} (a : A) : M S A := fun s => (Returned a, s).

Definition bind {S A B} (m : M S A) (k : A -> M S B) : M S B :=
  fun s => match m s with
           | (Returned a, s') => k a s'
           | (Raised e, s') => (Raised e, s')
           end.

Definition raise {S A} (e : exn) : M S A := fun s => (Raised e, s).
Definition gets {S A} (f : S -> A) : M S A := fun s => (Returned (f s), s).
Definition modify {S} (f : S -> S) : M S unit := fun s => (Returned tt, f s).

(** [try: m except Exception as e: h e].  Effects performed by [m] before it
    raised are kept. *)
Definition try_except {S A} (m : M S A) (h : exn -> M S A) : M S A :=
  fun s => match m s with
           | (Returned a, s') => (Returned a, s')
           | (Raised e, s') => h e s'
           end.

(** [try: m finally: f].  An exception of [f] replaces the outcome of [m]. *)
Definition try_finally {S A} (m : M S A) (f : M S unit) : M S A :=
  fun s => match m s with
           | (r, s') => match f s' with
                        | (Returned _, s'') => (r, s'')
                        | (Raised e, s'') => (Raised e, s'')
                        end
           end.

(** The monad notations of stdpp, read in this monad. *)
Declare Scope handler_scope.
Delimit Scope handler_scope with handler.
Notation "x ← m ; k" := (bind m (fun x => k))
  (at level 20, m at level 100, k at level 200, only parsing) : handler_scope.
Notation "m ;; k" := (bind m (fun _ => k))
  (at level 100, k at level 200, only parsing, right associativity) : handler_scope.
Local Open Scope handler_scope.

(** [for x in xs: acc = body x acc] with a local variable [acc]. *)
Fixpoint for_each {S A B} (xs : list A) (acc : B) (body : A -> B -> M S B)
  : M S B :=
  match xs with
  | [] => ret acc
  | x :: xs' => acc' ← body x acc; for_each xs' acc' body
  end.

(** ** JSON values (the [dict] literals handed to [send_json]) *)

Inductive json : Type :=
  | JNull
  | JBool (b : bool)
  | JInt (n : Z)
  | JStr (s : string)
  | JObj (fields : list (string * json)).

Definition json_fields (j : json) : list (string * json) :=
  match j with JObj fs => fs | _ => [] end.

Fixpoint assoc_get (k : string) (fs : list (string * json)) : option json :=
  match fs with
  | [] => None
  | (k', v) :: fs' => if String.eqb k k' then Some v else assoc_get k fs'
  end.

Definition json_get (k : string) (j : json) : option json :=
  assoc_get k (json_fields j).



(** ** The process state *)

(** A WebSocket object; only its identity matters. *)
Definition WebSocket : Type := positive.

(** One row of the [Notifications] table. *)
Record Notification : Type := mkNotification {
  NotificationID : Z;
  SaleID : option Z;
  Message : string;
  CreatedAt : string;
  IsRead : bool;
  IsDone : bool
}.

(** One call of [send_json]: the socket, the message, and whether the frame
    went out ([true]) or the call raised ([false]). *)
Record Send : Type := mkSend {
  send_to : WebSocket;
  send_msg : json;
  send_ok : bool
}.

(** An open database connection with its cursor. *)
Record Session : Type := mkSession {
  work : list Notification;      (* the table as this transaction sees it *)
  cursor_rows : list Notification; (* rows left to fetch *)
  rowcount : Z                   (* [cursor.rowcount] of the last statement *)
}.

Record World : Type := mkWorld {
  active_connections : gset WebSocket; (* [manager.active_connections] *)
  wire : list Send;                    (* every [send_json] call, oldest first *)
  emitted : list json;                 (* every message handed to [broadcast] *)
  router_manager : bool;               (* [routers.notifications.manager] is set *)
  table : list Notification;           (* committed rows of [Notifications] *)
  session : option Session
}.

Definition set_active_connections (f : gset WebSocket -> gset WebSocket)
  (w : World) : World :=
  mkWorld (f (active_connections w)) (wire w) (emitted w) (router_manager w)
          (table w) (session w).

Definition log_send (s : Send) (w : World) : World :=
  mkWorld (active_connections w) (wire w ++ [s]) (emitted w) (router_manager w)
          (table w) (session w).

Definition log_emitted (m : json) (w : World) : World :=
  mkWorld (active_connections w) (wire w) (emitted w ++ [m]) (router_manager w)
          (table w) (session w).

Definition set_session (o : option Session) (w : World) : World :=
  mkWorld (active_connections w) (wire w) (emitted w) (router_manager w)
          (table w) o.

Definition set_table (t : list Notification) (w : World) : World :=
  mkWorld (active_connections w) (wire w) (emitted w) (router_manager w)
          t (session w).

Definition set_router_manager (b : bool) (w : World) : World :=
  mkWorld (active_connections w) (wire w) (emitted w) b
          (table w) (session w).

(** The state right after [main.py] is imported, over an empty table. *)
Definition initial_world : World :=
  mkWorld ∅ [] [] true [] None.

(** ** The environment: outcomes of the calls that leave the process *)

(** SQL statements the notification router issues. *)
Inductive Sql : Type :=
  | InsertNotification (sale_id : Z) (message : string)
  | SelectById (notif_id : Z)
  | UpdateRead (notif_id : Z)
  | UpdateDone (notif_id : Z)
  | UpdateAllRead.

Inductive DbStep : Type :=
  | StepConnect
  | StepCursor
  | StepExecute (q : Sql)
  | StepFetch
  | StepCommit
  | StepClose.

(** [None]: the call returns; [Some msg]: it raises [Exception(msg)]. *)
Record Env : Type := mkEnv {
  ws_accept : WebSocket -> option string;
  ws_send_json : WebSocket -> json -> option string;
  db_fault : DbStep -> option string;
  db_now : string                     (* the server clock, as CONVERT(varchar, _, 127) *)
}.

(** An environment in which nothing fails. *)
Definition calm_env : Env :=
  mkEnv (fun _ => None) (fun _ _ => None) (fun _ => None) "2024-01-01T00:00:00".

(** ** [main.py]: ConnectionManager *)

Module ConnectionManager.
Section WithEnv.
Variable env : Env.

(** [await websocket.accept()] *)
Definition accept (websocket : WebSocket) : M World unit :=
  match ws_accept env websocket with
  | None => ret tt
  | Some msg => raise (PyException msg)
  end.

(** [await connection.send_json(message)] *)
Definition send_json (connection : WebSocket) (message : json) : M World unit :=
  match ws_send_json env connection message with
  | None => modify (log_send (mkSend connection message true))
  | Some msg =>
      modify (log_send (mkSend connection message false));;
      raise (PyException msg)
  end.

Definition connect (websocket : WebSocket) : M World unit :=
  accept websocket;;
  modify (set_active_connections (fun s => {[websocket]} ∪ s)).

Definition disconnect (websocket : WebSocket) : M World unit :=
  modify (set_active_connections (fun s => s ∖ {[websocket]})).

(** The first line keeps the trace [emitted] of the calls; the rest is the
    body of the method. *)
Definition broadcast (message : json) : M World unit :=
  modify (log_emitted message);;
  conns ← gets active_connections;
  if decide (conns = ∅) then ret tt
  else
    disconnected ← for_each (elements conns) (∅ : gset WebSocket)
      (fun connection disconnected =>
         try_except
           (send_json connection message;; ret disconnected)
           (fun e => ret ({[connection]} ∪ disconnected)));
    for_each (elements disconnected) tt
      (fun connection _ => disconnect connection).

(** [len(manager.active_connections)], as the health check reports it. *)
Definition websocket_clients (w : World) : nat := size (active_connections w).
End WithEnv.
End ConnectionManager.

(** Registry operations, for sequences of connects and disconnects. *)
Inductive RegistryOp : Type :=
  | OpConnect (websocket : WebSocket)
  | OpDisconnect (websocket : WebSocket).

Definition run_op (env : Env) (op : RegistryOp) : M World unit :=
  match op with
  | OpConnect ws => ConnectionManager.connect env ws
  | OpDisconnect ws => ConnectionManager.disconnect ws
  end.

(** Runs the operations in order; a [connect] whose handshake raises leaves
    the registry as it is and the sequence goes on (each operation belongs to
    a different endpoint coroutine). *)
Fixpoint run_ops (env : Env) (ops : list RegistryOp) (w : World) : World :=
  match ops with
  | [] => w
  | op :: ops' => run_ops env ops' (snd (run_op env op w))
  end.

(** ** The notification store *)

Module Database.

Definition set_read (n : Notification) : Notification :=
  mkNotification (NotificationID n) (SaleID n) (Message n) (CreatedAt n)
                 true (IsDone n).

Definition set_done_read (n : Notification) : Notification :=
  mkNotification (NotificationID n) (SaleID n) (Message n) (CreatedAt n)
                 true true.

Definition has_id (notif_id : Z) (n : Notification) : bool :=
  NotificationID n =? notif_id.

(** [UPDATE ... SET f WHERE p]: the new rows and the number of rows hit. *)
Definition update_where (p : Notification -> bool)
  (f : Notification -> Notification) (rows : list Notification)
  : list Notification * Z :=
  (map (fun n => if p n then f n else n) rows,
   Z.of_nat (length (filter (fun n => p n = true) rows))).

(** Modelled from the spec: the identity column of the [Notifications]
    table, whose schema is not in the repository; a new row gets a numeric
    id that no row of the table has. *)
Definition fresh_id (rows : list Notification) : Z :=
  1 + fold_right Z.max 0 (map NotificationID rows).

(** Modelled from the spec: the column defaults of the [Notifications]
    table, whose schema is not in the repository; a created record has
    [IsRead = false] and [IsDone = false] and the creation timestamp. *)
Definition inserted_row (now : string) (rows : list Notification)
  (sale_id : Z) (message : string) : Notification :=
  mkNotification (fresh_id rows) (Some sale_id) message now false false.

(** What a statement does to the rows a transaction sees: the new rows, the
    result set, and [rowcount] ([-1] for a SELECT). *)
Definition run_sql (now : string) (q : Sql) (rows : list Notification)
  : list Notification * list Notification * Z :=
  match q with
  | InsertNotification sale_id message =>
      let row := inserted_row now rows sale_id message in
      (rows ++ [row], [row], 1)
  | SelectById notif_id =>
      (rows, filter (fun n => has_id notif_id n = true) rows, -1)
  | UpdateRead notif_id =>
      let '(rows', hit) := update_where (has_id notif_id) set_read rows in
      (rows', [], hit)
  | UpdateDone notif_id =>
      let '(rows', hit) := update_where (has_id notif_id) set_done_read rows in
      (rows', [], hit)
  | UpdateAllRead =>
      let '(rows', hit) := update_where (fun n => negb (IsRead n)) set_read rows in
      (rows', [], hit)
  end.

Section WithEnv.
Variable env : Env.

Definition step (s : DbStep) : M World unit :=
  match db_fault env s with
  | None => ret tt
  | Some msg => raise (PyException msg)
  end.

Definition the_session : M World Session :=
  o ← gets session;
  match o with
  | Some s => ret s
  | None => raise (PyException "Attempt to use a closed connection.")
  end.

(** Modelled from the spec: [database.get_db_connection], which is not in
    the repository; it opens a connection to the notification store.  The
    handlers call [conn.commit()] themselves, so a connection is a
    transaction: statements act on the rows it sees, [commit] makes them
    the rows of the table, and closing without a commit drops them. *)
Definition get_db_connection : M World unit :=
  step StepConnect;;
  rows ← gets table;
  modify (set_session (Some (mkSession rows [] (-1)))).

(** [async with conn.cursor() as cursor] *)
Definition cursor : M World unit :=
  the_session;; step StepCursor.

(** [await cursor.execute(sql, ...)] *)
Definition execute (q : Sql) : M World unit :=
  s ← the_session;
  step (StepExecute q);;
  let '(rows', result, hit) := run_sql (db_now env) q (work s) in
  modify (set_session (Some (mkSession rows' result hit))).

(** [await cursor.fetchone()] *)
Definition fetchone : M World (option Notification) :=
  s ← the_session;
  step StepFetch;;
  match cursor_rows s with
  | [] => ret None
  | row :: rest =>
      modify (set_session (Some (mkSession (work s) rest (rowcount s))));;
      ret (Some row)
  end.

(** [await conn.commit()] *)
Definition commit : M World unit :=
  s ← the_session;
  step StepCommit;;
  modify (set_table (work s)).

(** [if conn: await conn.close()]; a connection that is dropped loses what
    it did not commit. *)
Definition close_if_open : M World unit :=
  o ← gets session;
  match o with
  | None => ret tt
  | Some _ => modify (set_session None);; step StepClose
  end.
End WithEnv.
End Database.

(** ** [routers/notifications.py]: the producers *)

Module Notifications.

(** The event dicts the producers build. *)
Definition json_opt_int (o : option Z) : json :=
  match o with Some n => JInt n | None => JNull end.

Definition notification_data (row : Notification) : json :=
  JObj [("NotificationID", JInt (NotificationID row));
        ("SaleID", json_opt_int (SaleID row));
        ("Message", JStr (Message row));
        ("CreatedAt", JStr (CreatedAt row));
        ("IsRead", JBool (IsRead row));
        ("IsDone", JBool (IsDone row))].

Definition new_notification_event (row : Notification) : json :=
  JObj [("type", JStr "new_notification"); ("payload", notification_data row)].

Definition notification_read_event (notif_id : Z) : json :=
  JObj [("type", JStr "notification_read");
        ("payload", JObj [("NotificationID", JInt notif_id)])].

Definition notification_done_event (notif_id : Z) : json :=
  JObj [("type", JStr "notification_done");
        ("payload", JObj [("NotificationID", JInt notif_id)])].

Definition notifications_read_all_event : json :=
  JObj [("type", JStr "notifications_read_all")].

Section WithEnv.
Variable env : Env.

Let get_db_connection := Database.get_db_connection env.
Let cursor := Database.cursor env.
Let execute := Database.execute env.
Let fetchone := Database.fetchone env.
Let commit := Database.commit env.
Let close_if_open := Database.close_if_open env.

(** [conn = None]: a handler starts without a connection. *)
Definition conn_none : M World unit := modify (set_session None).

(** [set_connection_manager(conn_manager)] *)
Definition set_connection_manager : M World unit :=
  modify (set_router_manager true).

(** [if manager: await manager.broadcast(message)] *)
Definition notify (message : json) : M World unit :=
  injected ← gets router_manager;
  if injected then ConnectionManager.broadcast env message else ret tt.

(** [except HTTPException: raise] followed by
    [except Exception as e: raise HTTPException(500, prefix + str(e))]. *)
Definition reraise_http (prefix : string) (e : exn) : M World json :=
  match e with
  | HTTPException _ _ => raise e
  | PyException _ => raise (HTTPException 500 (prefix +:+ str_exn e))
  end.

Definition create_notification (sale_id : Z) (message : string)
  : M World json :=
  conn_none;;
  try_finally
    (try_except
       (get_db_connection;;
        cursor;;
        execute (InsertNotification sale_id message);;
        new_notif_row ← fetchone;
        commit;;
        match new_notif_row with
        | None =>
            raise (HTTPException 500 "Failed to create and retrieve notification.")
        | Some row =>
            notify (new_notification_event row);;
            ret (JObj [("message", JStr "Notification created successfully.");
                       ("data", notification_data row)])
        end)
       (fun _ =>
          raise (HTTPException 500
                   "Internal server error while creating notification.")))
    close_if_open.

Definition mark_as_read (notif_id : Z) : M World json :=
  conn_none;;
  try_finally
    (try_except
       (get_db_connection;;
        cursor;;
        execute (SelectById notif_id);;
        existing ← fetchone;
        match existing with
        | None => raise (HTTPException 404 "Notification not found.")
        | Some _ =>
            execute (UpdateRead notif_id);;
            commit;;
            notify (notification_read_event notif_id);;
            ret (JObj [("message", JStr "Notification marked as read.")])
        end)
       (reraise_http "Failed to mark notification as read: "))
    close_if_open.

Definition mark_as_done (notif_id : Z) : M World json :=
  conn_none;;
  try_finally
    (try_except
       (get_db_connection;;
        cursor;;
        execute (UpdateDone notif_id);;
        commit;;
        hit ← (s ← Database.the_session; ret (rowcount s));
        if hit =? 0 then raise (HTTPException 404 "Notification not found.")
        else
          notify (notification_done_event notif_id);;
          ret (JObj [("message", JStr "Notification marked as done.")]))
       (reraise_http "Failed to mark notification as done: "))
    close_if_open.

Definition mark_all_as_read : M World json :=
  conn_none;;
  try_finally
    (try_except
       (get_db_connection;;
        cursor;;
        execute UpdateAllRead;;
        commit;;
        notify notifications_read_all_event;;
        ret (JObj [("message", JStr "All notifications marked as read.")]))
       (fun e =>
          raise (HTTPException 500 ("Failed to mark all as read: " +:+ str_exn e))))
    close_if_open.
End WithEnv.

(** The four producers of the router, as one family of calls. *)
Inductive Producer : Type :=
  | Create (sale_id : Z) (message : string)
  | MarkRead (notif_id : Z)
  | MarkDone (notif_id : Z)
  | MarkAllRead.

Definition run_producer (env : Env) (p : Producer) : M World json :=
  match p with
  | Create sale_id message => create_notification env sale_id message
  | MarkRead notif_id => mark_as_read env notif_id
  | MarkDone notif_id => mark_as_done env notif_id
  | MarkAllRead => mark_all_as_read env
  end.

(** The database steps a producer takes up to and including its commit,
    over a table that holds [rows]. *)
Definition mutation_steps (p : Producer) : list DbStep :=
  match p with
  | Create sale_id message =>
      [StepConnect; StepCursor;
       StepExecute (InsertNotification sale_id message); StepFetch; StepCommit]
  | MarkRead notif_id =>
      [StepConnect; StepCursor; StepExecute (SelectById notif_id); StepFetch;
       StepExecute (UpdateRead notif_id); StepCommit]
  | MarkDone notif_id =>
      [StepConnect; StepCursor; StepExecute (UpdateDone notif_id); StepCommit]
  | MarkAllRead =>
      [StepConnect; StepCursor; StepExecute UpdateAllRead; StepCommit]
  end.

(** The statement by which a producer changes the table. *)
Definition mutation (p : Producer) : Sql :=
  match p with
  | Create sale_id message => InsertNotification sale_id message
  | MarkRead notif_id => UpdateRead notif_id
  | MarkDone notif_id => UpdateDone notif_id
  | MarkAllRead => UpdateAllRead
  end.

(** The event of a producer, given the row its statement returned. *)
Definition event_of (p : Producer) (new_rows : list Notification) : list json :=
  match p with
  | Create _ _ => map new_notification_event new_rows
  | MarkRead notif_id => [notification_read_event notif_id]
  | MarkDone notif_id => [notification_done_event notif_id]
  | MarkAllRead => [notifications_read_all_event]
  end.
End Notifications.

(** ** Python strings and floats *)

Module Py.

(** [chr.lower()] on an ASCII letter.  Bytes above 127 are left alone:
    Python lowers some of those characters too, but the only one that turns
    into a plain ASCII letter is the Kelvin sign (into k), so equality of a
    lowered string with "delivery" is decided alike. *)
Definition lower_char (c : ascii) : ascii :=
  let n := nat_of_ascii c in
  if ((65 <=? n) && (n <=? 90))%nat then ascii_of_nat (n + 32) else c.

(** [s.lower()] *)
Fixpoint lower (s : string) : string :=
  match s with
  | EmptyString => EmptyString
  | String c rest => String (lower_char c) (lower rest)
  end.

(** [s.startswith(p)] *)
Definition startswith (p s : string) : bool := String.prefix p s.

Fixpoint join_chars (sep s : string) : string :=
  match s with
  | EmptyString => EmptyString
  | String c rest => String c (sep +:+ join_chars sep rest)
  end.

Fixpoint replace_from (old new : string) (skip : nat) (s : string) : string :=
  match s with
  | EmptyString => EmptyString
  | String c rest =>
      match skip with
      | S k => replace_from old new k rest
      | O =>
          if String.prefix old s
          then new +:+ replace_from old new (String.length old - 1) rest
          else String c (replace_from old new 0 rest)
      end
  end.

(** [s.replace(old, new)]: every occurrence, scanning from the left. *)
Definition replace (old new s : string) : string :=
  match old with
  | EmptyString => new +:+ join_chars new s
  | _ => replace_from old new 0 s
  end.

(** [bool(s)] of a string, and of an optional string. *)
Definition str_truthy (s : string) : bool :=
  match s with EmptyString => false | _ => true end.

Definition opt_truthy (o : option string) : bool :=
  match o with Some s => str_truthy s | None => false end.

(** [bool(x)] of a float: false on both zeros only. *)
Definition float_truthy (x : float) : bool := negb (PrimFloat.eqb x 0%float).

(** The conversion of an [int] operand in float arithmetic: rounded to the
    nearest float, ties to even, [OverflowError] when that is not finite. *)
Definition nearest_float (n : Z) : float :=
  SF2Prim (binary_normalize prec emax n 0 false).

Definition float_of_int (n : Z) : outcome float :=
  if is_infinity (nearest_float n)
  then Raised (PyException "int too large to convert to float")
  else Returned (nearest_float n).

(** [max(x, 0)]: the first argument unless [0 > x]. *)
Definition max0 (x : float) : float :=
  if PrimFloat.ltb x 0%float then 0%float else x.

End Py.

(** ** [routers/email_notifications.py] *)

Module AddonItem.
Record t : Type := mk {
  addon_id : Z;
  addon_name : string;
  price : float
}.
End AddonItem.

Module OrderItem.
Record t : Type := mk {
  name : string;
  quantity : Z;
  price : float;
  addons : list AddonItem.t;
  promo_name : option string;
  promo_type : option string;
  promo_value : option float;
  promo_discount : option float
}.
End OrderItem.

Module EmailNotificationRequest.
Record t : Type := mk {
  customer_id : option Z;
  customer_name : string;
  customer_email : option string;
  order_id : string;
  order_type : string;
  status : string;
  items : list OrderItem.t;
  total : float;
  payment_method : string;
  delivery_address : option string;
  phone_number : option string;
  reference_number : option string;
  delivery_fee : option float
}.
End EmailNotificationRequest.

(** The dict [calculate_order_breakdown] returns. *)
Module Breakdown.
Record t : Type := mk {
  subtotal : float;
  addons_total : float;
  discount_total : float;
  delivery_fee : float;
  final_total : float;
  is_delivery : bool
}.
End Breakdown.

Module Email.
Import EmailNotificationRequest.

Definition DELIVERY_FEE : float := 50%float.

(** The three running totals of the loop over the items. *)
Record Totals : Type := mkTotals {
  acc_subtotal : float;
  acc_addons : float;
  acc_discount : float
}.

(** One turn of [for item in data.items]. *)
Definition add_item (acc : Totals) (item : OrderItem.t) : outcome Totals :=
  match Py.float_of_int (OrderItem.quantity item) with
  | Raised e => Raised e
  | Returned q =>
      let subtotal := (acc_subtotal acc + OrderItem.price item * q)%float in
      let addons_total :=
        foldl (fun a addon => (a + AddonItem.price addon)%float)
              (acc_addons acc) (OrderItem.addons item) in
      let discount_total :=
        match OrderItem.promo_discount item with
        | Some d =>
            if Py.float_truthy d && PrimFloat.ltb 0%float d
            then (acc_discount acc + d)%float
            else acc_discount acc
        | None => acc_discount acc
        end in
      Returned (mkTotals subtotal addons_total discount_total)
  end.

Fixpoint add_items (acc : Totals) (items : list OrderItem.t) : outcome Totals :=
  match items with
  | [] => Returned acc
  | item :: rest =>
      match add_item acc item with
      | Raised e => Raised e
      | Returned acc' => add_items acc' rest
      end
  end.

Definition calculate_order_breakdown (data : t) : outcome Breakdown.t :=
  match add_items (mkTotals 0 0 0) (items data) with
  | Raised e => Raised e
  | Returned acc =>
      let is_delivery := String.eqb (Py.lower (order_type data)) "delivery" in
      let delivery_fee :=
        match delivery_fee data with
        | Some fee => fee
        | None => if is_delivery then DELIVERY_FEE else 0%float
        end in
      let final_total :=
        (acc_subtotal acc + acc_addons acc + delivery_fee - acc_discount acc)%float in
      Returned (Breakdown.mk (acc_subtotal acc) (acc_addons acc) (acc_discount acc)
                             delivery_fee (Py.max0 final_total) is_delivery)
  end.

(** *** The endpoints *)

Inductive AuthQuery : Type :=
  | ById (user_id : Z)
  | ByUsername (username : string).

(** What the auth service does with a request. *)
Inductive HttpReply : Type :=
  | HttpResponse (status_code : Z) (email : option string)
  | HttpTimeout
  | HttpFailure (msg : string).

(** The calls that leave the process, in the order they were made. *)
Inductive Effect : Type :=
  | AuthGet (q : AuthQuery) (token : string)
  | SmtpSend (to_email subject html_content : string).

(** Configuration, collaborators and templates of the e-mail router.  The
    HTML templates are taken as functions of the request and its cost
    breakdown. *)
Record MailEnv : Type := mkMailEnv {
  SENDER_EMAIL : string;
  SENDER_PASSWORD : string;
  auth_get : AuthQuery -> string -> HttpReply;
  smtp_send : string -> string -> string -> option string;
  accepted_template : t -> Breakdown.t -> string;
  update_template : t -> Breakdown.t -> string
}.

Definition lift {A} (r : outcome A) : M (list Effect) A := fun s => (r, s).

Definition perform (e : Effect) : M (list Effect) unit :=
  modify (fun trace => trace ++ [e]).

Definition int_truthy (o : option Z) : bool :=
  match o with Some n => negb (n =? 0) | None => false end.

Section WithMail.
Variable mail : MailEnv.

Definition fetch_user_email (user_id : option Z) (username : string)
  (auth_token : string) : M (list Effect) (option string) :=
  if negb (Py.str_truthy auth_token) then ret None
  else if negb (int_truthy user_id) && negb (Py.str_truthy username) then ret None
  else
    let q := match user_id with
             | Some n => if n =? 0 then ByUsername username else ById n
             | None => ByUsername username
             end in
    perform (AuthGet q auth_token);;
    match auth_get mail q auth_token with
    | HttpResponse code email => if code =? 200 then ret email else ret None
    | HttpTimeout => ret None
    | HttpFailure _ => ret None
    end.

Definition create_order_accepted_email (data : t) : M (list Effect) string :=
  breakdown ← lift (calculate_order_breakdown data);
  ret (accepted_template mail data breakdown).

Definition create_order_update_email (data : t) : M (list Effect) string :=
  breakdown ← lift (calculate_order_breakdown data);
  ret (update_template mail data breakdown).

Definition send_email (to_email subject html_content : string)
  : M (list Effect) bool :=
  if negb (Py.str_truthy (SENDER_EMAIL mail))
     || negb (Py.str_truthy (SENDER_PASSWORD mail))
  then ret false
  else
    perform (SmtpSend to_email subject html_content);;
    match smtp_send mail to_email subject html_content with
    | None => ret true
    | Some _ => ret false
    end.

Definition unauthorized : exn :=
  HTTPException 401 "Missing or invalid authorization header".

(** [not authorization or not authorization.startswith("Bearer ")] *)
Definition bad_authorization (authorization : option string) : bool :=
  match authorization with
  | None => true
  | Some a => negb (Py.str_truthy a) || negb (Py.startswith "Bearer " a)
  end.

Definition reraise_http {A} (e : exn) : M (list Effect) A :=
  match e with
  | HTTPException _ _ => raise e
  | PyException _ =>
      raise (HTTPException 500 ("Failed to send email: " +:+ str_exn e))
  end.

Definition send_order_accepted_email (request : t)
  (authorization : option string) : M (list Effect) json :=
  try_except
    (if bad_authorization authorization then raise unauthorized
     else
       let auth_token := Py.replace "Bearer " "" (default "" authorization) in
       user_email ← (if Py.opt_truthy (customer_email request)
                     then ret (customer_email request)
                     else fetch_user_email (customer_id request)
                            (customer_name request) auth_token);
       match user_email with
       | Some to_email =>
           if Py.str_truthy to_email then
             html_content ← create_order_accepted_email request;
             success ← send_email to_email "✓ Order Accepted - Bleu Bean Cafe"
                                  html_content;
             if success then
               ret (JObj [("success", JBool true);
                          ("message", JStr "Order acceptance email sent successfully");
                          ("email", JStr to_email);
                          ("order_id", JStr (order_id request))])
             else raise (HTTPException 500 "Failed to send email. Check server logs.")
           else
             ret (JObj [("success", JBool false);
                        ("message", JStr "No email address found for customer");
                        ("order_id", JStr (order_id request))])
       | None =>
           ret (JObj [("success", JBool false);
                      ("message", JStr "No email address found for customer");
                      ("order_id", JStr (order_id request))])
       end)
    reraise_http.

Definition send_order_update_email (request : t)
  (authorization : option string) : M (list Effect) json :=
  try_except
    (if bad_authorization authorization then raise unauthorized
     else
       let auth_token := Py.replace "Bearer " "" (default "" authorization) in
       user_email ← (if Py.opt_truthy (customer_email request)
                     then ret (customer_email request)
                     else fetch_user_email (customer_id request)
                            (customer_name request) auth_token);
       match user_email with
       | Some to_email =>
           if Py.str_truthy to_email then
             html_content ← create_order_update_email request;
             success ← send_email to_email
                         ("Order Update: " +:+ status request +:+ " - Bleu Bean Cafe")
                         html_content;
             if success then
               ret (JObj [("success", JBool true);
                          ("message", JStr "Order update email sent successfully");
                          ("email", JStr to_email);
                          ("order_id", JStr (order_id request));
                          ("status", JStr (status request))])
             else raise (HTTPException 500 "Failed to send email. Check server logs.")
           else
             ret (JObj [("success", JBool false);
                        ("message", JStr "No email address found for customer");
                        ("order_id", JStr (order_id request));
                        ("status", JStr (status request))])
       | None =>
           ret (JObj [("success", JBool false);
                      ("message", JStr "No email address found for customer");
                      ("order_id", JStr (order_id request));
                      ("status", JStr (status request))])
       end)
    reraise_http.
End WithMail.
End Email.

(** ** [main.py]: the WebSocket endpoint and the health check *)

Module Main.
Section WithEnv.
Variable env : Env.

(** The client's side of a socket: what the [i]-th [receive_text] does,
    return a text frame or raise ([WebSocketDisconnect] or anything else). *)
Variable receive_text : WebSocket -> nat -> outcome string.

(** [while True: data = await websocket.receive_text()], from the [i]-th
    frame on.  The loop is left by an exception only; it returns here when
    the fuel is used up and the client is still talking. *)
Fixpoint receive_loop (fuel : nat) (websocket : WebSocket) (i : nat)
  : M World unit :=
  match fuel with
  | O => ret tt
  | S fuel' =>
      match receive_text websocket i with
      | Returned data => receive_loop fuel' websocket (S i)
      | Raised e => raise e
      end
  end.

(** The two [except] clauses differ in a log line only: both deregister the
    socket.  The result is [true] when the coroutine is over and [false]
    when the fuel ran out with the connection open. *)
Definition websocket_endpoint (fuel : nat) (websocket : WebSocket)
  : M World bool :=
  ConnectionManager.connect env websocket;;
  try_except
    (receive_loop fuel websocket 0;; ret false)
    (fun e => ConnectionManager.disconnect websocket;; ret true).

Definition health_check : M World json :=
  clients ← gets ConnectionManager.websocket_clients;
  ret (JObj [("status", JStr "healthy");
             ("service", JStr "notification-service");
             ("websocket_clients", JInt (Z.of_nat clients))]).
End WithEnv.
End Main.

(** ** [routers/notifications.py]: listing the active notifications *)

Module Listing.

(** [a] was created at the same time as [b] or later.  [CreatedAt] is kept
    as the fixed-width text of [CONVERT(varchar, _, 127)], on which the
    order of the characters is the order in time. *)
Definition not_older (a b : Notification) : bool :=
  String.leb (CreatedAt b) (CreatedAt a).

Fixpoint insert_newest_first (n : Notification) (rows : list Notification)
  : list Notification :=
  match rows with
  | [] => [n]
  | r :: rest =>
      if not_older n r then n :: rows else r :: insert_newest_first n rest
  end.

(** [ORDER BY CreatedAt DESC]; rows of the same instant keep the order of
    the table (SQL leaves their order open). *)
Definition order_newest_first (rows : list Notification) : list Notification :=
  foldr insert_newest_first [] rows.

(** [SELECT ... FROM Notifications WHERE IsDone = 0 ORDER BY CreatedAt DESC] *)
Definition select_active (rows : list Notification) : list Notification :=
  order_newest_first (filter (fun n => IsDone n = false) rows).

Section WithEnv.
Variable env : Env.

(** What the SELECT of the listing does: [None] it runs, [Some msg] it
    raises [Exception(msg)]. *)
Variable select_fault : option string.

(** [await cursor.execute(sql)] of the listing *)
Definition execute_select_active : M World unit :=
  s ← Database.the_session;
  match select_fault with
  | Some msg => raise (PyException msg)
  | None =>
      modify (set_session
                (Some (mkSession (work s) (select_active (work s)) (-1))))
  end.

(** [await cursor.fetchall()] *)
Definition fetchall : M World (list Notification) :=
  s ← Database.the_session;
  Database.step env StepFetch;;
  modify (set_session (Some (mkSession (work s) [] (rowcount s))));;
  ret (cursor_rows s).

(** The dict built for each row has the keys and values of
    [notification_data]. *)
Definition get_notifications : M World (list json) :=
  Notifications.conn_none;;
  try_finally
    (try_except
       (Database.get_db_connection env;;
        Database.cursor env;;
        execute_select_active;;
        rows ← fetchall;
        ret (Notifications.notification_data <$> rows))
       (fun e =>
          raise (HTTPException 500
                   ("Failed to fetch notifications: " +:+ str_exn e))))
    (Database.close_if_open env).
End WithEnv.
End Listing.

(** ** Vocabulary of the statements *)

(** Whether [send_json] to [ws] goes through in [env]. *)
Definition send_succeeds (env : Env) (message : json) (ws : WebSocket) : bool :=
  match ws_send_json env ws message with
  | None => true
  | Some _ => false
  end.

(** The record a [send_json] call leaves on the wire. *)
Definition attempt (env : Env) (message : json) (ws : WebSocket) : Send :=
  mkSend ws message (send_succeeds env message ws).

(** The world a broadcast leaves behind. *)
Definition after_broadcast (env : Env) (message : json) (w : World) : World :=
  mkWorld
    (filter (fun ws => send_succeeds env message ws = true) (active_connections w))
    (wire w ++ fmap (attempt env message) (elements (active_connections w)))
    (emitted w ++ [message]) (router_manager w) (table w) (session w).


(** The sends of a trace that went to [ws]. *)
Definition sends_to (ws : WebSocket) (trace : list Send) : list Send :=
  filter (fun s => send_to s = ws) trace.

(** The sockets a sequence registers (handshake accepted) and the sockets
    it deregisters, in order and with repeats. *)
Definition adds (env : Env) (ops : list RegistryOp) : list WebSocket :=
  omap (fun op => match op with
                  | OpConnect ws =>
                      match ws_accept env ws with
                      | None => Some ws
                      | Some _ => None
                      end
                  | OpDisconnect _ => None
                  end) ops.

Definition removes (ops : list RegistryOp) : list WebSocket :=
  omap (fun op => match op with
                  | OpConnect _ => None
                  | OpDisconnect ws => Some ws
                  end) ops.

(** The same as sets ... *)
Definition added (env : Env) (ops : list RegistryOp) : gset WebSocket :=
  list_to_set (adds env ops).

Definition removed (ops : list RegistryOp) : gset WebSocket :=
  list_to_set (removes ops).

(** ... and the sockets left when the removes are taken from the adds as
    multisets, one add for each remove. *)
Definition adds_minus_removes (env : Env) (ops : list RegistryOp)
  : gset WebSocket :=
  dom ((list_to_set_disj (adds env ops) : gmultiset WebSocket)
       ∖ list_to_set_disj (removes ops)).

(** [op] changes whether [ws] is registered: a disconnect of [ws], or a
    connect of [ws] whose handshake is accepted. *)
Definition touches (env : Env) (ws : WebSocket) (op : RegistryOp) : bool :=
  match op with
  | OpConnect ws' =>
      bool_decide (ws' = ws)
      && match ws_accept env ws' with None => true | Some _ => false end
  | OpDisconnect ws' => bool_decide (ws' = ws)
  end.

(** No socket is connected again after it was disconnected. *)
Definition no_reconnect (ops : list RegistryOp) : Prop :=
  ∀ pre post ws, ops = pre ++ OpDisconnect ws :: post → OpConnect ws ∉ post.

(** A sequence that connects socket 1 again after its disconnect, and
    connects socket 2 twice before its disconnect. *)
Definition reconnecting_ops : list RegistryOp :=
  [OpConnect 1%positive; OpDisconnect 1%positive; OpConnect 1%positive;
   OpConnect 2%positive; OpConnect 2%positive; OpDisconnect 2%positive].

(** [w'] differs from [w] in the open database session at most. *)
Definition quiet (w w' : World) : Prop :=
  table w' = table w ∧ emitted w' = emitted w ∧ wire w' = wire w
  ∧ active_connections w' = active_connections w
  ∧ router_manager w' = router_manager w.

(** No database step fails. *)
Definition db_calm (env : Env) : Prop := ∀ s, db_fault env s = None.

(** The rows, the result set and the row count of a producer's statement
    over the committed table. *)
Definition mutated (env : Env) (p : Notifications.Producer) (w : World)
  : list Notification :=
  (Database.run_sql (db_now env) (Notifications.mutation p) (table w)).1.1.

Definition returned_rows (env : Env) (p : Notifications.Producer) (w : World)
  : list Notification :=
  (Database.run_sql (db_now env) (Notifications.mutation p) (table w)).1.2.

(** A table with one notification, and an environment whose database is
    down. *)
Definition one_row_world : World :=
  mkWorld {[1%positive]} [] [] true
          [mkNotification 1 (Some 7) "order ready" "2024-01-01T00:00:00" false false]
          None.


(** Equality of two strings up to the case of their ASCII letters. *)
Fixpoint equal_ignoring_case (s t : string) : bool :=
  match s, t with
  | EmptyString, EmptyString => true
  | String a s', String b t' =>
      Ascii.eqb (Py.lower_char a) (Py.lower_char b) && equal_ignoring_case s' t'
  | _, _ => false
  end.

(** A sum of floats, added from the left starting at [0.0]. *)
Definition float_sum (xs : list float) : float := foldl PrimFloat.add 0%float xs.

(** The cost of a line: price times quantity. *)
Definition line_cost (item : OrderItem.t) : float :=
  (OrderItem.price item * Py.nearest_float (OrderItem.quantity item))%float.

(** The discount a line brings in: its [promo_discount] when greater than 0. *)
Definition counted_discount (item : OrderItem.t) : list float :=
  match OrderItem.promo_discount item with
  | Some d => if PrimFloat.ltb 0%float d then [d] else []
  | None => []
  end.

(** The discount of a line read as "its [promo_discount], counted once". *)
Definition stated_discount (item : OrderItem.t) : list float :=
  match OrderItem.promo_discount item with
  | Some d => [d]
  | None => []
  end.

(** The final total with every [promo_discount] counted once. *)
Definition stated_final_total (data : EmailNotificationRequest.t)
  (b : Breakdown.t) : float :=
  Py.max0
    (float_sum (line_cost <$> EmailNotificationRequest.items data)
     + float_sum (AddonItem.price
                    <$> concat (OrderItem.addons
                                  <$> EmailNotificationRequest.items data))
     + Breakdown.delivery_fee b
     - float_sum (concat (stated_discount
                            <$> EmailNotificationRequest.items data)))%float.

(** A pick-up order of one coffee with a negative [promo_discount]. *)
Definition negative_promo_request : EmailNotificationRequest.t :=
  EmailNotificationRequest.mk
    None "Ana" (Some "ana@example.com") "ORD-1" "Pickup" "PREPARING"
    [OrderItem.mk "Latte" 1 10%float [] None None None (Some (-5)%float)]
    10%float "cash" None None None None.

(** A delivery order: two coffees with a shot each line and a discount. *)
Definition delivery_request : EmailNotificationRequest.t :=
  EmailNotificationRequest.mk
    None "Ana" (Some "ana@example.com") "ORD-2" "DELIVERY" "PREPARING"
    [OrderItem.mk "Latte" 2 120%float [AddonItem.mk 1 "Shot" 15%float]
                  (Some "Promo") (Some "fixed") (Some 20%float) (Some 20%float)]
    285%float "cash" (Some "1 Main St") None None None.

(** A mail environment whose collaborators all answer. *)
Definition calm_mail : Email.MailEnv :=
  Email.mkMailEnv "cafe@example.com" "secret"
    (fun _ _ => Email.HttpResponse 200 (Some "ana@example.com"))
    (fun _ _ _ => None)
    (fun _ _ => "<html>accepted</html>")
    (fun _ _ => "<html>update</html>").

(** A client that sends two frames and then goes away. *)
Definition two_frames_then_gone (ws : WebSocket) (i : nat) : outcome string :=
  if (i <? 2)%nat then Returned "ping" else Raised (PyException "disconnect").

(** A client that keeps sending frames. *)
Definition talkative_client (ws : WebSocket) (i : nat) : outcome string :=
  Returned "ping".

(** Being listed at or before: created at the same time or later. *)
Definition newest_first (a b : Notification) : Prop :=
  Listing.not_older a b = true.

(** A store with an older notification that is done, a newer one that is
    not, and the newest one, read but not done. *)
Definition three_row_world : World :=
  mkWorld {[1%positive]} [] [] true
          [mkNotification 1 (Some 7) "order ready" "2024-01-01T00:00:00" true true;
           mkNotification 2 (Some 8) "order placed" "2024-01-02T00:00:00" false false;
           mkNotification 3 None "stock low" "2024-01-03T00:00:00" true false]
          None.

(** The world after a handler committed [rows], handed [event] to the
    manager if one is injected, and closed its connection. *)
Definition after_commit (env : Env) (rows : list Notification) (event : json)
  (w : World) : World :=
  set_session None
    (if router_manager w
     then after_broadcast env event (set_table rows w)
     else set_table rows w).

(** The store has a notification with this id. *)
Definition present (notif_id : Z) (rows : list Notification) : Prop :=
  ∃ n, n ∈ rows ∧ NotificationID n = notif_id.

(** [old] occurs somewhere in [s]. *)
Fixpoint occurs (old s : string) : bool :=
  match s with
  | EmptyString => String.prefix old EmptyString
  | String _ rest => String.prefix old s || occurs old rest
  end.

(** The call is an SMTP send. *)
Definition is_smtp_send (e : Email.Effect) : bool :=
  match e with Email.SmtpSend _ _ _ => true | Email.AuthGet _ _ => false end.

(** The answer of both endpoints when no address is known. *)
Definition no_email_accepted (request : EmailNotificationRequest.t) : json :=
  JObj [("success", JBool false);
        ("message", JStr "No email address found for customer");
        ("order_id", JStr (EmailNotificationRequest.order_id request))].

Definition no_email_update (request : EmailNotificationRequest.t) : json :=
  JObj [("success", JBool false);
        ("message", JStr "No email address found for customer");
        ("order_id", JStr (EmailNotificationRequest.order_id request));
        ("status", JStr (EmailNotificationRequest.status request))].

(** An auth service that knows nobody, and a request without an address. *)
Definition unknown_mail : Email.MailEnv :=
  Email.mkMailEnv "cafe@example.com" "secret"
    (fun _ _ => Email.HttpResponse 404 None)
    (fun _ _ _ => None)
    (fun _ _ => "<html>accepted</html>")
    (fun _ _ => "<html>update</html>").

Definition anonymous_request : EmailNotificationRequest.t :=
  EmailNotificationRequest.mk
    None "Ana" None "ORD-3" "Pickup" "PREPARING"
    [OrderItem.mk "Latte" 1 10%float [] None None None None]
    10%float "cash" None None None None.

(** An order with a quantity no float can hold. *)
Definition huge_request : EmailNotificationRequest.t :=
  EmailNotificationRequest.mk
    None "Ana" (Some "ana@example.com") "ORD-4" "Pickup" "PREPARING"
    [OrderItem.mk "Latte" (10 ^ 400) 10%float [] None None None None]
    10%float "cash" None None None None.

(** An order without items. *)
Definition empty_request : EmailNotificationRequest.t :=
  EmailNotificationRequest.mk
    None "Ana" None "ORD-5" "Delivery" "PREPARING" []
    0%float "cash" None None None None.

(** What a caller of an e-mail endpoint can get: an answer, a 401 or a 500. *)
Definition answer_or_http_error (r : outcome json) : Prop :=
  match r with
  | Returned _ => True
  | Raised (HTTPException code _) => code = 401 ∨ code = 500
  | Raised (PyException _) => False
  end.

(** The run [r] of an endpoint from [trace] made no call but SMTP sends to
    [addr], and its answer, if any, is a success that names [addr]. *)
Definition served_address (addr : string) (trace : list Email.Effect)
  (r : outcome json * list Email.Effect) : Prop :=
  (∃ calls,
     snd r = trace ++ calls
     ∧ ∀ c, c ∈ calls →
         ∃ subject html_content, c = Email.SmtpSend addr subject html_content)
  ∧ (∀ j, fst r = Returned j →
       json_get "success" j = Some (JBool true)
       ∧ json_get "email" j = Some (JStr addr)).

(** * Verified properties *)

(** ** The connection manager *)

Section ManagerFacts.
Variable env : Env.
Variable message : json.

Lemma send_loop_run xs (acc : gset WebSocket) w :
  for_each xs acc
    (fun connection disconnected =>
       try_except
         (ConnectionManager.send_json env connection message;; ret disconnected)
         (fun e => ret ({[connection]} ∪ disconnected))) w
  = (Returned (list_to_set
                 (filter (fun ws => send_succeeds env message ws = false) xs) ∪ acc),
     mkWorld (active_connections w) (wire w ++ fmap (attempt env message) xs)
             (emitted w) (router_manager w) (table w) (session w)).
Proof.
  revert acc w. induction xs as [|x xs IH]; intros acc w; simpl.
  - unfold ret. rewrite app_nil_r. destruct w. do 2 f_equal. set_solver.
  - unfold bind at 1, try_except, ConnectionManager.send_json, attempt.
    destruct (ws_send_json env x message) as [msg|] eqn:E.
    + cbn. rewrite IH; cbn. rewrite <- app_assoc; cbn.
      unfold attempt, send_succeeds. rewrite E; cbn.
      do 2 f_equal. set_solver.
    + cbn. rewrite IH; cbn. rewrite <- app_assoc; cbn.
      unfold attempt, send_succeeds. rewrite E; cbn. done.
Qed.

Lemma disconnect_loop_run xs w :
  for_each xs tt (fun connection _ => ConnectionManager.disconnect connection) w
  = (Returned tt,
     set_active_connections (fun s => s ∖ list_to_set xs) w).
Proof.
  revert w. induction xs as [|x xs IH]; intros w; simpl.
  - unfold ret, set_active_connections. destruct w; cbn. do 2 f_equal. set_solver.
  - unfold bind, ConnectionManager.disconnect, modify. rewrite IH.
    unfold set_active_connections; cbn. do 2 f_equal. set_solver.
Qed.

(** The whole call, in closed form. *)
Lemma broadcast_run w :
  ConnectionManager.broadcast env message w
  = (Returned tt, after_broadcast env message w).
Proof.
  unfold ConnectionManager.broadcast, after_broadcast, bind, modify, gets; cbn.
  destruct (decide (active_connections w = ∅)) as [E|NE].
  - unfold ret, log_emitted. rewrite E, elements_empty; cbn.
    rewrite app_nil_r, filter_empty_L by apply _. done.
  - rewrite send_loop_run; cbn. rewrite disconnect_loop_run.
    unfold set_active_connections; cbn. do 2 f_equal.
    apply set_eq. intros ws.
    rewrite elem_of_difference, elem_of_filter, elem_of_list_to_set,
      elem_of_elements, elem_of_union, elem_of_list_to_set, list_elem_of_filter,
      elem_of_elements.
    destruct (send_succeeds env message ws); set_solver.
Qed.
End ManagerFacts.

Lemma sends_to_nil ws (trace : list Send) :
  (∀ s, s ∈ trace → send_to s ≠ ws) → sends_to ws trace = [].
Proof.
  unfold sends_to. induction trace as [|s trace IH]; intros Hall; [done|].
  rewrite filter_cons_False by (apply Hall; left).
  apply IH. intros s' Hs'. apply Hall. by right.
Qed.

Lemma sends_to_attempts_stranger env message ws (xs : list WebSocket) :
  ws ∉ xs → sends_to ws (attempt env message <$> xs) = [].
Proof.
  intros Hout. apply sends_to_nil.
  intros s (y & -> & Hy)%list_elem_of_fmap Heq. cbn in Heq. by subst.
Qed.

Lemma sends_to_attempts_member env message ws (xs : list WebSocket) :
  NoDup xs → ws ∈ xs →
  sends_to ws (attempt env message <$> xs) = [attempt env message ws].
Proof.
  induction 1 as [|x xs Hx Hnd IH]; intros Hin.
  - by apply elem_of_nil in Hin.
  - rewrite fmap_cons. unfold sends_to. rewrite filter_cons; cbn [attempt send_to].
    fold (sends_to ws (attempt env message <$> xs)).
    destruct (decide (x = ws)) as [->|Hne].
    + by rewrite sends_to_attempts_stranger.
    + apply elem_of_cons in Hin as [?|Hin]; [congruence|]. by apply IH.
Qed.




(** ** The registry under sequences of connects and disconnects *)

Lemma run_ops_snoc env ops op w :
  run_ops env (ops ++ [op]) w = snd (run_op env op (run_ops env ops w)).
Proof. revert w. induction ops as [|o ops IH]; intros w; cbn; [done|apply IH]. Qed.

(** What one operation does to the registry. *)
Lemma run_op_registry env op w :
  active_connections (snd (run_op env op w)) =
  match op with
  | OpConnect ws =>
      match ws_accept env ws with
      | None => {[ws]} ∪ active_connections w
      | Some _ => active_connections w
      end
  | OpDisconnect ws => active_connections w ∖ {[ws]}
  end.
Proof.
  destruct op as [ws|ws]; cbn; [|done].
  unfold ConnectionManager.connect, ConnectionManager.accept, bind.
  by destruct (ws_accept env ws).
Qed.

Lemma disconnect_absent ws w :
  ws ∉ active_connections w →
  ConnectionManager.disconnect ws w = (Returned tt, w).
Proof.
  intros Hout. unfold ConnectionManager.disconnect, modify, set_active_connections.
  destruct w as [conns ? ? ? ? ?]; cbn in *. do 2 f_equal. set_solver.
Qed.

Lemma added_snoc env ops op :
  added env (ops ++ [op]) = added env ops ∪ added env [op].
Proof. unfold added, adds. rewrite omap_app, list_to_set_app_L. done. Qed.

Lemma removed_snoc ops op :
  removed (ops ++ [op]) = removed ops ∪ removed [op].
Proof. unfold removed, removes. rewrite omap_app, list_to_set_app_L. done. Qed.

Lemma elem_of_removed ws ops : ws ∈ removed ops ↔ OpDisconnect ws ∈ ops.
Proof.
  unfold removed, removes. rewrite elem_of_list_to_set, list_elem_of_omap. split.
  - intros ([ws'|ws'] & Hin & Heq); [done|]. by simplify_eq.
  - intros Hin. by exists (OpDisconnect ws).
Qed.

Lemma no_reconnect_init ops op : no_reconnect (ops ++ [op]) → no_reconnect ops.
Proof.
  intros H pre post ws -> Hin.
  apply (H pre (post ++ [op]) ws).
  - by rewrite <- app_assoc.
  - apply elem_of_app. by left.
Qed.

Lemma registry_added_minus_removed env ops w :
  no_reconnect ops → active_connections w = ∅ →
  active_connections (run_ops env ops w) = added env ops ∖ removed ops.
Proof.
  intros Hnr Hempty. induction ops as [|op ops IH] using rev_ind.
  - cbn. rewrite Hempty. set_solver.
  - rewrite run_ops_snoc, run_op_registry, added_snoc, removed_snoc.
    rewrite IH by (by eapply no_reconnect_init).
    destruct op as [ws|ws]; unfold added, removed, adds, removes; cbn.
    + assert (Hfresh : ws ∉ removed ops).
      { rewrite elem_of_removed. intros (pre & post & ->)%list_elem_of_split.
        apply (Hnr pre (post ++ [OpConnect ws]) ws).
        - by rewrite <- app_assoc.
        - apply elem_of_app. right. by left. }
      destruct (ws_accept env ws); cbn; set_solver.
    + set_solver.
Qed.

Lemma registry_last_op env ops w ws :
  ws ∈ active_connections (run_ops env ops w) ↔
  match last (filter (fun op => touches env ws op = true) ops) with
  | Some (OpConnect _) => True
  | Some (OpDisconnect _) => False
  | None => ws ∈ active_connections w
  end.
Proof.
  induction ops as [|op ops IH] using rev_ind; [done|].
  rewrite run_ops_snoc, run_op_registry, filter_app, filter_cons, filter_nil.
  destruct op as [ws'|ws']; cbn [touches].
  - destruct (ws_accept env ws') eqn:E.
    + rewrite andb_false_r. rewrite decide_False by done.
      by rewrite app_nil_r.
    + rewrite andb_true_r. destruct (decide (ws' = ws)) as [->|Hne].
      * rewrite bool_decide_eq_true_2, decide_True, last_snoc by done. set_solver.
      * rewrite bool_decide_eq_false_2, decide_False, app_nil_r by done.
        rewrite <- IH. set_solver.
  - destruct (decide (ws' = ws)) as [->|Hne].
    + rewrite bool_decide_eq_true_2, decide_True, last_snoc by done. set_solver.
    + rewrite bool_decide_eq_false_2, decide_False, app_nil_r by done.
      rewrite <- IH. set_solver.
Qed.

(** C3 (as the code has it): after any sequence of connects and disconnects
    the registry lists no socket twice; disconnecting a socket that is not
    registered changes nothing and raises nothing; a socket is registered at
    the end exactly when the last operation on it was an accepted connect (or
    it was registered before and never touched); and when no socket is
    connected again after its disconnect, a registry that started empty ends
    as the added sockets minus the removed ones. *)
Theorem registry_after_ops (env : Env) (ops : list RegistryOp) (w : World) :
  let w' := run_ops env ops w in
  NoDup (elements (active_connections w'))
  ∧ (∀ ws, ws ∉ active_connections w' →
       ConnectionManager.disconnect ws w' = (Returned tt, w'))
  ∧ (∀ ws, ws ∈ active_connections w' ↔
       match last (filter (fun op => touches env ws op = true) ops) with
       | Some (OpConnect _) => True
       | Some (OpDisconnect _) => False
       | None => ws ∈ active_connections w
       end)
  ∧ (no_reconnect ops → active_connections w = ∅ →
       active_connections w' = added env ops ∖ removed ops).
Proof.
  intros w'. split; [apply NoDup_elements|]. split; [|split].
  - intros ws. apply disconnect_absent.
  - intros ws. apply registry_last_op.
  - apply registry_added_minus_removed.
Qed.

(** C3, counterexample: after connect, disconnect, connect of socket 1 and
    connect, connect, disconnect of socket 2, socket 1 alone is registered;
    the added sockets minus the removed ones are none, as sets, and are
    sockets 1 and 2 when every disconnect takes one connect away. *)
Lemma registry_not_added_minus_removed :
  elements (active_connections (run_ops calm_env reconnecting_ops initial_world))
  = [1%positive]
  ∧ active_connections (run_ops calm_env reconnecting_ops initial_world)
    ≠ added calm_env reconnecting_ops ∖ removed reconnecting_ops
  ∧ active_connections (run_ops calm_env reconnecting_ops initial_world)
    ≠ adds_minus_removes calm_env reconnecting_ops.
Proof.
  split; [by vm_compute|].
  split; intros H; apply (f_equal elements) in H; vm_compute in H; discriminate H.
Qed.

(** ** The producers *)

Ltac unfold_handlers_in H :=
  unfold Notifications.run_producer, Notifications.create_notification,
    Notifications.mark_as_read, Notifications.mark_as_done,
    Notifications.mark_all_as_read, Notifications.notify,
    Notifications.reraise_http, Notifications.conn_none,
    Database.get_db_connection, Database.cursor, Database.execute,
    Database.fetchone, Database.commit, Database.close_if_open,
    Database.the_session, Database.step,
    try_finally, try_except, bind, gets, modify, ret, raise in H.

(** Runs a handler symbolically in [H : handler w = (r, w')], with one case
    for each database step that can fail. *)
Ltac split_faults_in H :=
  repeat match type of H with
         | context [db_fault ?env ?s] =>
             let E := fresh "Hfault" in
             destruct (db_fault env s) eqn:E;
             cbn -[ConnectionManager.broadcast] in H
         end.

Ltac run_handler_in H :=
  unfold_handlers_in H; cbn -[ConnectionManager.broadcast] in H;
  split_faults_in H.

(** The handler raised and touched nothing but its own session. *)
Ltac quiet_error :=
  left; split; [eexists; reflexivity | repeat split; reflexivity].

(** The handler committed; it then broadcast if a manager is injected. *)
Ltac committed_in H :=
  match type of H with
  | context [router_manager ?w] =>
      let Hmgr := fresh "Hmgr" in
      destruct (router_manager w) eqn:Hmgr;
      [rewrite broadcast_run in H|];
      cbn in H; simplify_eq; right;
      (split; [repeat constructor; assumption|]);
      (split; [reflexivity|]);
      [right; split; [reflexivity|]; eexists; repeat split; reflexivity
      |left; repeat split; try reflexivity; assumption]
  end.

(** Every run of a producer ends in one of three ways: an error that left
    everything but the session alone; a commit without an event; a commit
    followed by the broadcast of the producer's event. *)
Lemma producer_outcome env p w r w' :
  Notifications.run_producer env p w = (r, w') →
  ((∃ e, r = Raised e) ∧ quiet w w')
  ∨ (Forall (fun s => db_fault env s = None) (Notifications.mutation_steps p)
     ∧ table w' = mutated env p w
     ∧ (quiet (set_table (mutated env p w) w) w'
        ∨ (router_manager w = true
           ∧ ∃ m, Notifications.event_of p (returned_rows env p w) = [m]
                  ∧ emitted w' = emitted w ++ [m]
                  ∧ wire w'
                    = wire w ++ (attempt env m <$> elements (active_connections w))
                  ∧ active_connections w'
                    = filter (fun ws => send_succeeds env m ws = true)
                             (active_connections w)))).
Proof.
  intros Hrun. destruct p as [sale_id message|notif_id|notif_id|].
  - run_handler_in Hrun; simplify_eq; try quiet_error; committed_in Hrun.
  - run_handler_in Hrun; simplify_eq; try quiet_error.
    all: destruct (filter _ (table w)) as [|row rest] eqn:Hsel;
      cbn -[ConnectionManager.broadcast] in Hrun;
      split_faults_in Hrun; simplify_eq; try quiet_error; committed_in Hrun.
  - run_handler_in Hrun; simplify_eq; try quiet_error.
    all: match type of Hrun with
         | context [Z.eqb ?a 0] => destruct (Z.eqb_spec a 0) as [Hhit|Hhit]
         end;
      cbn -[ConnectionManager.broadcast] in Hrun.
    all: try (simplify_eq; right;
              (split; [repeat constructor; assumption|]);
              (split; [reflexivity|]);
              left; repeat split; reflexivity).
    all: committed_in Hrun.
  - run_handler_in Hrun; simplify_eq; try quiet_error; committed_in Hrun.
Qed.

Lemma select_absent notif_id (rows : list Notification) :
  (∀ n, n ∈ rows → NotificationID n ≠ notif_id) →
  filter (fun n => Database.has_id notif_id n = true) rows = [].
Proof.
  induction rows as [|n rows IH]; intros Habs; [done|].
  rewrite filter_cons_False.
  - apply IH. intros n' Hn'. apply Habs. by right.
  - unfold Database.has_id. rewrite Z.eqb_eq. apply Habs. by left.
Qed.

Lemma select_present notif_id (rows : list Notification) :
  (∃ n, n ∈ rows ∧ NotificationID n = notif_id) →
  Z.of_nat (length (filter (fun n => Database.has_id notif_id n = true) rows)) ≠ 0.
Proof.
  intros (n & Hin & Hid).
  assert (Hsel : n ∈ filter (fun n => Database.has_id notif_id n = true) rows).
  { apply list_elem_of_filter. split; [|done].
    unfold Database.has_id. by apply Z.eqb_eq. }
  destruct (filter _ rows); [by apply elem_of_nil in Hsel|cbn; lia].
Qed.

(** C4: marking as read an id that no row of the store has raises, emits no
    event, sends no frame and leaves the store as it was; when the database
    steps go through, what is raised is the 404 "not found". *)
Theorem mark_as_read_not_found (env : Env) (notif_id : Z) (w : World) :
  (∀ n, n ∈ table w → NotificationID n ≠ notif_id) →
  let r := Notifications.mark_as_read env notif_id w in
  (∃ e, fst r = Raised e)
  ∧ emitted (snd r) = emitted w
  ∧ wire (snd r) = wire w
  ∧ table (snd r) = table w
  ∧ (db_calm env → fst r = Raised (HTTPException 404 "Notification not found.")).
Proof.
  intros Habs r. subst r.
  destruct (Notifications.mark_as_read env notif_id w) as [r w'] eqn:Hrun.
  pose proof (select_absent notif_id (table w) Habs) as Hsel.
  cbn [fst snd].
  run_handler_in Hrun; rewrite ?Hsel in Hrun; cbn in Hrun; simplify_eq.
  all: (split; [eexists; reflexivity|]); repeat (split; [reflexivity|]).
  all: intros Hcalm; try reflexivity.
  all: repeat match goal with
         | H : db_fault _ _ = Some _ |- _ => rewrite Hcalm in H; discriminate H
         end.
Qed.

Lemma mark_as_read_not_found_witness :
  let r := Notifications.mark_as_read calm_env 7 one_row_world in
  (∃ e, fst r = Raised e)
  ∧ emitted (snd r) = emitted one_row_world
  ∧ wire (snd r) = wire one_row_world
  ∧ table (snd r) = table one_row_world
  ∧ (db_calm calm_env → fst r = Raised (HTTPException 404 "Notification not found.")).
Proof.
  apply mark_as_read_not_found.
  intros n Hn. apply list_elem_of_singleton in Hn as ->. cbn. lia.
Defined.

(** C5: whichever producer runs, if a database step of its mutation fails
    the caller gets an exception, no event is emitted, no frame is sent and
    the table is as before; and an event is emitted only after every step up
    to the commit went through, with the mutation committed and the event
    being the one of that producer. *)
Theorem failed_mutation_emits_nothing (env : Env) (p : Notifications.Producer)
  (w : World) :
  let r := Notifications.run_producer env p w in
  ((∃ s, s ∈ Notifications.mutation_steps p ∧ db_fault env s ≠ None) →
     (∃ e, fst r = Raised e)
     ∧ emitted (snd r) = emitted w
     ∧ wire (snd r) = wire w
     ∧ table (snd r) = table w)
  ∧ (emitted (snd r) ≠ emitted w →
     Forall (fun s => db_fault env s = None) (Notifications.mutation_steps p)
     ∧ table (snd r) = mutated env p w
     ∧ ∃ m, Notifications.event_of p (returned_rows env p w) = [m]
            ∧ emitted (snd r) = emitted w ++ [m]).
Proof.
  intros r. subst r.
  destruct (Notifications.run_producer env p w) as [r w'] eqn:Hrun.
  cbn [fst snd].
  destruct (producer_outcome _ _ _ _ _ Hrun)
    as [[Herr Hq]|(Hsteps & Htable & [Hq|(Hmgr & m & Hev & Hem & _)])].
  - destruct Hq as (? & ? & ? & _). split; [done|]. intros Hne. congruence.
  - split.
    + intros (s & Hin & Hf). rewrite Forall_forall in Hsteps. by apply Hsteps in Hin.
    + intros Hne. destruct Hq as (_ & Hem & _). cbn in Hem. congruence.
  - split.
    + intros (s & Hin & Hf). rewrite Forall_forall in Hsteps. by apply Hsteps in Hin.
    + intros _. eauto.
Qed.

Lemma update_done_flags notif_id (rows : list Notification) n :
  n ∈ map (fun n => if Database.has_id notif_id n
                    then Database.set_done_read n else n) rows →
  NotificationID n = notif_id →
  IsDone n = true ∧ IsRead n = true.
Proof.
  intros Hin Hid. apply list_elem_of_In, in_map_iff in Hin as (n0 & <- & _).
  unfold Database.has_id in *.
  destruct (Z.eqb_spec (NotificationID n0) notif_id) as [_|Hne]; [done|].
  by destruct Hne.
Qed.

Lemma update_done_others notif_id (rows : list Notification) i :
  map (fun n => if Database.has_id notif_id n
                then Database.set_done_read n else n) rows !! i
  = (fun n => if Database.has_id notif_id n
              then Database.set_done_read n else n) <$> rows !! i.
Proof. apply (list_lookup_fmap _ rows i). Qed.

(** C6: when the database steps go through and the manager is injected,
    marking as done an id the store has returns normally, sets [IsDone] and
    [IsRead] on the rows with that id, leaves every other row as it was, and
    emits one event: [notification_done] with payload [{NotificationID: id}]. *)
Theorem mark_as_done_existing (env : Env) (notif_id : Z) (w : World) :
  db_calm env →
  router_manager w = true →
  (∃ n, n ∈ table w ∧ NotificationID n = notif_id) →
  let r := Notifications.mark_as_done env notif_id w in
  fst r = Returned (JObj [("message", JStr "Notification marked as done.")])
  ∧ length (table (snd r)) = length (table w)
  ∧ (∀ n, n ∈ table (snd r) → NotificationID n = notif_id →
       IsDone n = true ∧ IsRead n = true)
  ∧ (∀ i n, table w !! i = Some n →
       table (snd r) !! i
       = Some (if NotificationID n =? notif_id
               then mkNotification (NotificationID n) (SaleID n) (Message n)
                                   (CreatedAt n) true true
               else n))
  ∧ emitted (snd r)
    = emitted w ++ [JObj [("type", JStr "notification_done");
                          ("payload", JObj [("NotificationID", JInt notif_id)])]].
Proof.
  intros Hcalm Hmgr Hex r. subst r.
  destruct (Notifications.mark_as_done env notif_id w) as [r w'] eqn:Hrun.
  pose proof (select_present notif_id (table w) Hex) as Hhit.
  cbn [fst snd].
  unfold_handlers_in Hrun. rewrite !Hcalm in Hrun.
  cbn -[ConnectionManager.broadcast] in Hrun.
  match type of Hrun with
  | context [Z.eqb ?a 0] => destruct (Z.eqb_spec a 0) as [Hzero|_]
  end; [by destruct Hhit|].
  cbn -[ConnectionManager.broadcast] in Hrun.
  rewrite Hmgr, broadcast_run in Hrun. cbn in Hrun. simplify_eq.
  cbn [table emitted set_session after_broadcast set_table].
  split; [done|]. split; [by rewrite length_map|].
  split; [apply update_done_flags|]. split; [|done].
  intros i n Hi. by rewrite update_done_others, Hi.
Qed.

Lemma mark_as_done_existing_witness :
  let r := Notifications.mark_as_done calm_env 1 one_row_world in
  fst r = Returned (JObj [("message", JStr "Notification marked as done.")])
  ∧ length (table (snd r)) = length (table one_row_world)
  ∧ (∀ n, n ∈ table (snd r) → NotificationID n = 1 →
       IsDone n = true ∧ IsRead n = true)
  ∧ (∀ i n, table one_row_world !! i = Some n →
       table (snd r) !! i
       = Some (if NotificationID n =? 1
               then mkNotification (NotificationID n) (SaleID n) (Message n)
                                   (CreatedAt n) true true
               else n))
  ∧ emitted (snd r)
    = emitted one_row_world
      ++ [JObj [("type", JStr "notification_done");
                ("payload", JObj [("NotificationID", JInt 1)])]].
Proof.
  apply mark_as_done_existing.
  - intros s. reflexivity.
  - reflexivity.
  - eexists. split; [apply list_elem_of_singleton; reflexivity|reflexivity].
Defined.



(** ** The order cost breakdown *)

Lemma lower_eqb_ignoring_case s t :
  String.eqb (Py.lower s) (Py.lower t) = equal_ignoring_case s t.
Proof.
  revert t. induction s as [|a s IH]; intros [|b t]; cbn; try done.
  by rewrite IH.
Qed.

Lemma is_delivery_ignoring_case s :
  String.eqb (Py.lower s) "delivery" = equal_ignoring_case s "delivery".
Proof. apply (lower_eqb_ignoring_case s "delivery"). Qed.

(** C8: without a [delivery_fee] in the request the fee is 50.0 exactly when
    [order_type] is "delivery" up to case, and 0.0 otherwise; a [delivery_fee]
    in the request is used as it is, whatever the [order_type]. *)
Theorem delivery_fee_fallback (data : EmailNotificationRequest.t)
  (b : Breakdown.t) :
  Email.calculate_order_breakdown data = Returned b →
  Breakdown.delivery_fee b
  = match EmailNotificationRequest.delivery_fee data with
    | Some fee => fee
    | None =>
        if equal_ignoring_case (EmailNotificationRequest.order_type data) "delivery"
        then 50%float else 0%float
    end
  ∧ Breakdown.is_delivery b
    = equal_ignoring_case (EmailNotificationRequest.order_type data) "delivery".
Proof.
  unfold Email.calculate_order_breakdown. intros Hrun.
  destruct (Email.add_items _ _) as [acc|e]; [|discriminate Hrun].
  rewrite is_delivery_ignoring_case in Hrun. by simplify_eq.
Qed.

Lemma delivery_fee_fallback_witness :
  ∃ b, Email.calculate_order_breakdown delivery_request = Returned b
       ∧ Breakdown.delivery_fee b = 50%float
       ∧ Breakdown.is_delivery b = true.
Proof.
  eexists. split; [reflexivity|].
  exact (delivery_fee_fallback delivery_request _ eq_refl).
Defined.

(** A discount greater than zero is truthy. *)
Lemma positive_is_truthy d :
  PrimFloat.ltb 0%float d = true → Py.float_truthy d = true.
Proof.
  unfold Py.float_truthy. rewrite FloatAxioms.ltb_spec, FloatAxioms.eqb_spec.
  change (Prim2SF 0) with (S754_zero false).
  destruct (Prim2SF d) as [s|s| |s m e]; try destruct s; cbn; congruence.
Qed.

Lemma promo_guard d :
  Py.float_truthy d && PrimFloat.ltb 0%float d = PrimFloat.ltb 0%float d.
Proof.
  destruct (PrimFloat.ltb 0%float d) eqn:E; [|apply andb_false_r].
  by rewrite positive_is_truthy.
Qed.

(** The loop over the items, as three sums that go on from the running
    totals. *)
Lemma add_items_sums items acc acc' :
  Email.add_items acc items = Returned acc' →
  Email.acc_subtotal acc'
  = foldl PrimFloat.add (Email.acc_subtotal acc) (line_cost <$> items)
  ∧ Email.acc_addons acc'
    = foldl PrimFloat.add (Email.acc_addons acc)
            (AddonItem.price <$> concat (OrderItem.addons <$> items))
  ∧ Email.acc_discount acc'
    = foldl PrimFloat.add (Email.acc_discount acc)
            (concat (counted_discount <$> items)).
Proof.
  revert acc. induction items as [|item items IH]; intros acc Hrun.
  - cbn in Hrun. by simplify_eq.
  - cbn [Email.add_items] in Hrun. unfold Email.add_item, Py.float_of_int in Hrun.
    destruct (is_infinity _); [discriminate Hrun|].
    apply IH in Hrun as (Hsub & Hadd & Hdis); cbn in Hsub, Hadd, Hdis.
    rewrite !fmap_cons; cbn [concat]. rewrite fmap_app, !foldl_app.
    split; [exact Hsub|]. split.
    + rewrite Hadd. f_equal. symmetry. apply foldl_fmap.
    + rewrite Hdis. f_equal. unfold counted_discount.
      destruct (OrderItem.promo_discount item) as [d|]; [|done].
      rewrite promo_guard. by destruct (PrimFloat.ltb 0 d).
Qed.

Lemma add_items_returns items acc :
  (∀ item, item ∈ items →
     is_infinity (Py.nearest_float (OrderItem.quantity item)) = false) →
  ∃ acc', Email.add_items acc items = Returned acc'.
Proof.
  revert acc. induction items as [|item items IH]; intros acc Hfit.
  - by eexists.
  - cbn [Email.add_items]. unfold Email.add_item, Py.float_of_int.
    rewrite Hfit by (by left). apply IH. intros item' Hin. apply Hfit. by right.
Qed.

Lemma add_items_raises items acc e :
  Email.add_items acc items = Raised e →
  ∃ item, item ∈ items
          ∧ is_infinity (Py.nearest_float (OrderItem.quantity item)) = true.
Proof.
  revert acc. induction items as [|item items IH]; intros acc Hrun.
  - discriminate Hrun.
  - cbn [Email.add_items] in Hrun. unfold Email.add_item, Py.float_of_int in Hrun.
    destruct (is_infinity _) eqn:E.
    + exists item. split; [by left|done].
    + apply IH in Hrun as (item' & Hin & Hinf). exists item'. split; [by right|done].
Qed.

Lemma max0_not_negative x : PrimFloat.ltb (Py.max0 x) 0%float = false.
Proof. unfold Py.max0. by destruct (PrimFloat.ltb x 0%float) eqn:E. Qed.

(** C9 (as the code has it): the breakdown is computed unless a quantity is
    too large for a float; the final total is
    [max(subtotal + addons_total + delivery_fee - discount_total, 0)] and is
    not below zero; the subtotal adds price times quantity over the items;
    every add-on price is added once, whatever the quantity of its line; and
    a [promo_discount] is added once when it is greater than zero, and is
    left out otherwise. *)
Theorem order_breakdown_totals (data : EmailNotificationRequest.t) :
  ((∀ item, item ∈ EmailNotificationRequest.items data →
      is_infinity (Py.nearest_float (OrderItem.quantity item)) = false) →
   ∃ b, Email.calculate_order_breakdown data = Returned b)
  ∧ (∀ e, Email.calculate_order_breakdown data = Raised e →
       ∃ item, item ∈ EmailNotificationRequest.items data
               ∧ is_infinity (Py.nearest_float (OrderItem.quantity item)) = true)
  ∧ (∀ b, Email.calculate_order_breakdown data = Returned b →
       Breakdown.final_total b
       = Py.max0 (Breakdown.subtotal b + Breakdown.addons_total b
                  + Breakdown.delivery_fee b - Breakdown.discount_total b)%float
       ∧ PrimFloat.ltb (Breakdown.final_total b) 0%float = false
       ∧ Breakdown.subtotal b
         = float_sum (line_cost <$> EmailNotificationRequest.items data)
       ∧ Breakdown.addons_total b
         = float_sum (AddonItem.price
                        <$> concat (OrderItem.addons
                                      <$> EmailNotificationRequest.items data))
       ∧ Breakdown.discount_total b
         = float_sum (concat (counted_discount
                                <$> EmailNotificationRequest.items data))).
Proof.
  unfold Email.calculate_order_breakdown. split; [|split].
  - intros Hfit.
    destruct (add_items_returns _ (Email.mkTotals 0 0 0) Hfit) as [acc ->].
    by eexists.
  - intros e Hrun.
    destruct (Email.add_items _ _) as [acc|e'] eqn:Hloop; [discriminate Hrun|].
    by apply add_items_raises in Hloop.
  - intros b Hrun.
    destruct (Email.add_items _ _) as [acc|e'] eqn:Hloop; [|discriminate Hrun].
    apply add_items_sums in Hloop as (Hsub & Hadd & Hdis). cbn in Hsub, Hadd, Hdis.
    simplify_eq. cbn [Breakdown.final_total Breakdown.subtotal
      Breakdown.addons_total Breakdown.delivery_fee Breakdown.discount_total].
    split; [done|]. split; [apply max0_not_negative|]. done.
Qed.

(** C9, counterexample: a line with [promo_discount = -5.0] brings no
    discount in: the total of a 10.0 coffee is 10.0, not the 15.0 that
    counting the discount once would give. *)
Lemma negative_discount_left_out :
  ∃ b, Email.calculate_order_breakdown negative_promo_request = Returned b
       ∧ Breakdown.discount_total b = 0%float
       ∧ Breakdown.final_total b = 10%float
       ∧ stated_final_total negative_promo_request b = 15%float
       ∧ Breakdown.final_total b ≠ stated_final_total negative_promo_request b.
Proof.
  eexists. split; [reflexivity|]. repeat split; try reflexivity.
  intros H. apply (f_equal (fun x => PrimFloat.eqb x 10%float)) in H.
  vm_compute in H. discriminate H.
Qed.

(** Two coffees with one shot and a discount of 20.0, delivered: the shot and
    the discount count once, not twice. *)
Example breakdown_of_delivery_request :
  Email.calculate_order_breakdown delivery_request
  = Returned (Breakdown.mk 240%float 15%float 20%float 50%float 285%float true).
Proof. reflexivity. Qed.

(** ** Authorization of the e-mail endpoints *)

Lemma bad_authorization_without_bearer (authorization : option string) :
  (∀ a, authorization = Some a → Py.startswith "Bearer " a = false) →
  Email.bad_authorization authorization = true.
Proof.
  intros Hno. destruct authorization as [a|]; [|done].
  unfold Email.bad_authorization. rewrite (Hno a eq_refl). apply orb_true_r.
Qed.

(** C10: when the [Authorization] header is absent or does not start with
    "Bearer ", both e-mail endpoints raise the 401 error and no call to the
    auth service or to SMTP is made, whatever the request holds. *)
Theorem email_endpoints_require_bearer (mail : Email.MailEnv)
  (request : EmailNotificationRequest.t) (authorization : option string)
  (trace : list Email.Effect) :
  (∀ a, authorization = Some a → Py.startswith "Bearer " a = false) →
  Email.send_order_accepted_email mail request authorization trace
  = (Raised (HTTPException 401 "Missing or invalid authorization header"), trace)
  ∧ Email.send_order_update_email mail request authorization trace
    = (Raised (HTTPException 401 "Missing or invalid authorization header"), trace).
Proof.
  intros Hbad%bad_authorization_without_bearer.
  unfold Email.send_order_accepted_email, Email.send_order_update_email,
    try_except.
  by rewrite Hbad.
Qed.

Lemma email_endpoints_require_bearer_witness :
  Email.send_order_accepted_email calm_mail delivery_request (Some "Basic QW5h") []
  = (Raised (HTTPException 401 "Missing or invalid authorization header"), [])
  ∧ Email.send_order_update_email calm_mail delivery_request (Some "Basic QW5h") []
    = (Raised (HTTPException 401 "Missing or invalid authorization header"), []).
Proof.
  apply email_endpoints_require_bearer.
  intros a Ha. injection Ha as <-. reflexivity.
Defined.


(** * Further properties of the code *)

(** ** The WebSocket endpoint and the health check *)

Section EndpointFacts.
Variable env : Env.
Variable receive_text : WebSocket -> nat -> outcome string.

(** Reading frames changes nothing: the loop ends with the world it began
    with, however it ends. *)
Lemma receive_loop_world fuel ws i w :
  snd (Main.receive_loop receive_text fuel ws i w) = w.
Proof.
  revert i. induction fuel as [|fuel IH]; intros i; cbn; [done|].
  destruct (receive_text ws i); [apply IH|done].
Qed.

Lemma receive_loop_raises fuel ws k n e w :
  (∀ j, (j < n)%nat → ∃ data, receive_text ws (k + j) = Returned data) →
  receive_text ws (k + n) = Raised e →
  (n < fuel)%nat →
  Main.receive_loop receive_text fuel ws k w = (Raised e, w).
Proof.
  revert k fuel. induction n as [|n IH]; intros k fuel Hframes Hlast Hfuel.
  - destruct fuel as [|fuel]; [lia|]. cbn. rewrite Nat.add_0_r in Hlast.
    by rewrite Hlast.
  - destruct fuel as [|fuel]; [lia|]. cbn.
    destruct (Hframes 0%nat ltac:(lia)) as [data Hdata].
    rewrite Nat.add_0_r in Hdata. rewrite Hdata.
    apply IH; [|by replace (S k + n)%nat with (k + S n)%nat by lia|lia].
    intros j Hj. replace (S k + j)%nat with (k + S j)%nat by lia.
    apply Hframes. lia.
Qed.

Lemma receive_loop_pending fuel ws k w :
  (∀ j, (j < fuel)%nat → ∃ data, receive_text ws (k + j) = Returned data) →
  Main.receive_loop receive_text fuel ws k w = (Returned tt, w).
Proof.
  revert k. induction fuel as [|fuel IH]; intros k Hframes; cbn; [done|].
  destruct (Hframes 0%nat ltac:(lia)) as [data Hdata].
  rewrite Nat.add_0_r in Hdata. rewrite Hdata. apply IH.
  intros j Hj. replace (S k + j)%nat with (k + S j)%nat by lia.
  apply Hframes. lia.
Qed.

Lemma connect_accepted ws w :
  ws_accept env ws = None →
  ConnectionManager.connect env ws w
  = (Returned tt, set_active_connections (fun s => {[ws]} ∪ s) w).
Proof.
  intros Hok. unfold ConnectionManager.connect, ConnectionManager.accept, bind.
  by rewrite Hok.
Qed.
End EndpointFacts.

(** X1: once the handshake is accepted, a client whose [n]-th read raises
    (a disconnect or any other error) ends the endpoint normally with the
    socket out of the registry; the frames read before are dropped: nothing
    else of the state changes. *)
Theorem endpoint_deregisters_on_close (env : Env)
  (receive_text : WebSocket -> nat -> outcome string)
  (fuel n : nat) (ws : WebSocket) (e : exn) (w : World) :
  ws_accept env ws = None →
  (∀ j, (j < n)%nat → ∃ data, receive_text ws j = Returned data) →
  receive_text ws n = Raised e →
  (n < fuel)%nat →
  Main.websocket_endpoint env receive_text fuel ws w
  = (Returned true, set_active_connections (fun s => s ∖ {[ws]}) w).
Proof.
  intros Hok Hframes Hlast Hfuel.
  unfold Main.websocket_endpoint, bind at 1. rewrite connect_accepted by done.
  unfold try_except, bind at 1.
  rewrite (receive_loop_raises receive_text fuel ws 0 n e) by done.
  unfold bind, ConnectionManager.disconnect, modify, ret, set_active_connections.
  cbn. do 2 f_equal. set_solver.
Qed.

Lemma endpoint_deregisters_on_close_witness :
  Main.websocket_endpoint calm_env two_frames_then_gone 5 2%positive one_row_world
  = (Returned true,
     set_active_connections (fun s => s ∖ {[2%positive]}) one_row_world).
Proof.
  apply (endpoint_deregisters_on_close calm_env two_frames_then_gone 5 2
           2%positive (PyException "disconnect")).
  - reflexivity.
  - intros j Hj. exists "ping". unfold two_frames_then_gone.
    destruct j as [|[|j]]; [reflexivity|reflexivity|lia].
  - reflexivity.
  - lia.
Defined.

(** X2: while the client keeps sending frames the socket stays registered,
    and the frames have no effect on the state. *)
Theorem endpoint_open_stays_registered (env : Env)
  (receive_text : WebSocket -> nat -> outcome string)
  (fuel : nat) (ws : WebSocket) (w : World) :
  ws_accept env ws = None →
  (∀ j, (j < fuel)%nat → ∃ data, receive_text ws j = Returned data) →
  Main.websocket_endpoint env receive_text fuel ws w
  = (Returned false, set_active_connections (fun s => {[ws]} ∪ s) w).
Proof.
  intros Hok Hframes.
  unfold Main.websocket_endpoint, bind at 1. rewrite connect_accepted by done.
  unfold try_except, bind at 1.
  by rewrite (receive_loop_pending receive_text fuel ws 0).
Qed.

Lemma endpoint_open_stays_registered_witness :
  Main.websocket_endpoint calm_env talkative_client 7 2%positive one_row_world
  = (Returned false,
     set_active_connections (fun s => {[2%positive]} ∪ s) one_row_world).
Proof.
  apply endpoint_open_stays_registered.
  - reflexivity.
  - intros j _. by exists "ping".
Defined.

(** X3: the endpoint raises only when the handshake does, and then it has
    registered nothing: the world is as before.  After an accepted handshake
    every exception of the read loop is caught. *)
Theorem endpoint_raises_only_on_handshake (env : Env)
  (receive_text : WebSocket -> nat -> outcome string)
  (fuel : nat) (ws : WebSocket) (w : World) :
  match ws_accept env ws with
  | Some msg =>
      Main.websocket_endpoint env receive_text fuel ws w
      = (Raised (PyException msg), w)
  | None =>
      ∃ finished,
        fst (Main.websocket_endpoint env receive_text fuel ws w)
        = Returned finished
  end.
Proof.
  destruct (ws_accept env ws) as [msg|] eqn:Hacc.
  - unfold Main.websocket_endpoint, ConnectionManager.connect,
      ConnectionManager.accept, bind. by rewrite Hacc.
  - unfold Main.websocket_endpoint, bind at 1. rewrite connect_accepted by done.
    unfold try_except, bind at 1.
    destruct (Main.receive_loop _ _ _ _ _) as [[[]|e] w']; cbn; by eexists.
Qed.

Lemma elements_filter_registry (P : WebSocket → Prop) `{!∀ x, Decision (P x)}
  (X : gset WebSocket) :
  elements (filter P X) ≡ₚ filter P (elements X).
Proof.
  apply NoDup_Permutation.
  - apply NoDup_elements.
  - apply NoDup_filter, NoDup_elements.
  - intros x. rewrite elem_of_elements, elem_of_filter, list_elem_of_filter,
      elem_of_elements. done.
Qed.

(** X4: the health check changes nothing and reports the size of the
    registry.  After a broadcast that is the number of members whose send
    went through; an accepted connect of a new socket adds one, of a socket
    already registered adds none, and the disconnect of a registered socket
    takes one away. *)
Theorem health_check_counts_registry (env : Env) (message : json)
  (ws : WebSocket) (w : World) :
  Main.health_check w
  = (Returned (JObj [("status", JStr "healthy");
                     ("service", JStr "notification-service");
                     ("websocket_clients",
                      JInt (Z.of_nat (size (active_connections w))))]), w)
  ∧ ConnectionManager.websocket_clients
      (snd (ConnectionManager.broadcast env message w))
    = length (filter (fun c => send_succeeds env message c = true)
                     (elements (active_connections w)))
  ∧ (ws_accept env ws = None →
       ConnectionManager.websocket_clients
         (snd (ConnectionManager.connect env ws w))
       = if decide (ws ∈ active_connections w)
         then ConnectionManager.websocket_clients w
         else S (ConnectionManager.websocket_clients w))
  ∧ (ws ∈ active_connections w →
       S (ConnectionManager.websocket_clients
            (snd (ConnectionManager.disconnect ws w)))
       = ConnectionManager.websocket_clients w).
Proof.
  unfold ConnectionManager.websocket_clients.
  split; [done|]. split; [|split].
  - rewrite broadcast_run. unfold after_broadcast; cbn [snd active_connections].
    unfold size, set_size; cbn. by rewrite elements_filter_registry.
  - intros Hok. rewrite connect_accepted by done. cbn.
    destruct (decide (ws ∈ active_connections w)) as [Hin|Hout].
    + f_equal. set_solver.
    + rewrite size_union by set_solver. by rewrite size_singleton.
  - intros Hin. cbn.
    rewrite size_difference by set_solver. rewrite size_singleton.
    assert (size (active_connections w) ≠ 0)%nat; [|lia].
    intros Hz. apply size_empty_inv in Hz. set_solver.
Qed.

(** X5: broadcasting the same message again under the same send outcomes
    prunes nobody: everyone the first call kept gets the message a second
    time, and the registry stays as the first call left it. *)
Theorem rebroadcast_prunes_nothing (env : Env) (message : json) (w : World) :
  let w1 := snd (ConnectionManager.broadcast env message w) in
  let w2 := snd (ConnectionManager.broadcast env message w1) in
  active_connections w2 = active_connections w1
  ∧ (∀ ws, ws ∈ active_connections w1 →
       sends_to ws (wire w2) = sends_to ws (wire w1) ++ [mkSend ws message true]).
Proof.
  intros w1 w2. subst w1 w2. rewrite !broadcast_run; cbn [snd].
  set (w1 := after_broadcast env message w).
  assert (Hkept : ∀ ws, ws ∈ active_connections w1 →
                        send_succeeds env message ws = true).
  { intros ws. unfold w1, after_broadcast; cbn [active_connections].
    rewrite elem_of_filter. tauto. }
  split.
  - unfold after_broadcast at 1; cbn [active_connections].
    apply set_eq. intros ws. rewrite elem_of_filter.
    split; [tauto|]. intros Hin. split; [by apply Hkept|done].
  - intros ws Hin. unfold after_broadcast at 1; cbn [wire].
    unfold sends_to at 1. rewrite filter_app.
    fold (sends_to ws (wire w1)).
    fold (sends_to ws (attempt env message <$> elements (active_connections w1))).
    rewrite sends_to_attempts_member
      by (apply NoDup_elements || by apply elem_of_elements).
    unfold attempt. by rewrite Hkept.
Qed.

(** ** Listing the active notifications *)

Lemma insert_newest_first_perm n rows :
  Listing.insert_newest_first n rows ≡ₚ n :: rows.
Proof.
  induction rows as [|r rows IH]; cbn; [done|].
  destruct (Listing.not_older n r); [done|].
  rewrite IH. apply Permutation_swap.
Qed.

Lemma order_newest_first_perm rows : Listing.order_newest_first rows ≡ₚ rows.
Proof.
  induction rows as [|r rows IH]; cbn; [done|].
  by rewrite insert_newest_first_perm, IH.
Qed.

Lemma not_older_total a b :
  Listing.not_older a b = false → Listing.not_older b a = true.
Proof.
  unfold Listing.not_older, String.leb.
  rewrite (String.compare_antisym (CreatedAt a) (CreatedAt b)).
  by destruct (String.compare (CreatedAt b) (CreatedAt a)).
Qed.

Lemma insert_newest_first_sorted n rows :
  Sorted newest_first rows →
  Sorted newest_first (Listing.insert_newest_first n rows).
Proof.
  induction 1 as [|r rows Hs IH Hhd]; cbn.
  - repeat constructor.
  - destruct (Listing.not_older n r) eqn:E.
    + constructor; [by constructor|]. by constructor.
    + constructor; [exact IH|].
      destruct rows as [|r' rows]; cbn.
      * constructor. by apply not_older_total.
      * destruct (Listing.not_older n r'); constructor.
        -- by apply not_older_total.
        -- by inversion Hhd.
Qed.

Lemma order_newest_first_sorted rows :
  Sorted newest_first (Listing.order_newest_first rows).
Proof.
  induction rows as [|r rows IH]; cbn; [constructor|].
  by apply insert_newest_first_sorted.
Qed.

Lemma elem_of_select_active n rows :
  n ∈ Listing.select_active rows ↔ IsDone n = false ∧ n ∈ rows.
Proof.
  unfold Listing.select_active.
  by rewrite order_newest_first_perm, list_elem_of_filter.
Qed.

Ltac unfold_listing_in H :=
  unfold Listing.get_notifications, Listing.execute_select_active,
    Listing.fetchall, Notifications.conn_none,
    Database.get_db_connection, Database.cursor, Database.close_if_open,
    Database.the_session, Database.step,
    try_finally, try_except, bind, gets, modify, ret, raise in H.

Lemma get_notifications_run env w :
  db_calm env →
  Listing.get_notifications env None w
  = (Returned (Notifications.notification_data <$> Listing.select_active (table w)),
     set_session None w).
Proof.
  intros Hcalm.
  destruct (Listing.get_notifications env None w) as [r w'] eqn:Hrun.
  unfold_listing_in Hrun. rewrite !Hcalm in Hrun. cbn in Hrun. by simplify_eq.
Qed.

(** X6: with a working store the listing returns one dict for each
    notification that is not done and for no other, the newest first, and
    leaves the world as it was, the connection closed. *)
Theorem get_notifications_lists_active (env : Env) (w : World) :
  db_calm env →
  ∃ rows,
    Listing.get_notifications env None w
    = (Returned (Notifications.notification_data <$> rows), set_session None w)
    ∧ rows ≡ₚ filter (fun n => IsDone n = false) (table w)
    ∧ Sorted newest_first rows.
Proof.
  intros Hcalm. exists (Listing.select_active (table w)).
  split; [by apply get_notifications_run|]. split.
  - apply order_newest_first_perm.
  - apply order_newest_first_sorted.
Qed.

Lemma get_notifications_lists_active_witness :
  ∃ rows,
    Listing.get_notifications calm_env None three_row_world
    = (Returned (Notifications.notification_data <$> rows),
       set_session None three_row_world)
    ∧ rows ≡ₚ filter (fun n => IsDone n = false) (table three_row_world)
    ∧ Sorted newest_first rows.
Proof. apply get_notifications_lists_active. intros s. reflexivity. Defined.

(** X7: whatever fails, the listing changes neither the table nor the
    registry, emits nothing and sends nothing, and leaves no connection
    open; a failure of the query reaches the caller as a 500, and only an
    exception of [close] itself gets out as it is. *)
Theorem get_notifications_reads_only (env : Env) (select_fault : option string)
  (w : World) :
  let r := Listing.get_notifications env select_fault w in
  quiet w (snd r)
  ∧ session (snd r) = None
  ∧ match fst r with
    | Returned dicts =>
        dicts = Notifications.notification_data <$> Listing.select_active (table w)
    | Raised (HTTPException code _) => code = 500
    | Raised (PyException msg) => db_fault env StepClose = Some msg
    end.
Proof.
  intros r. subst r.
  destruct (Listing.get_notifications env select_fault w) as [r w'] eqn:Hrun.
  cbn [fst snd]. unfold_listing_in Hrun. cbn in Hrun.
  repeat match type of Hrun with
         | context [db_fault ?env ?s] =>
             let E := fresh "Hfault" in
             destruct (db_fault env s) eqn:E; cbn in Hrun
         end;
    try (destruct select_fault; cbn in Hrun);
    repeat match type of Hrun with
         | context [db_fault ?env ?s] =>
             let E := fresh "Hfault" in
             destruct (db_fault env s) eqn:E; cbn in Hrun
         end;
    simplify_eq; by repeat split.
Qed.

(** ** The producers over a working store *)

Lemma update_absent notif_id (f : Notification → Notification)
  (rows : list Notification) :
  (∀ n, n ∈ rows → NotificationID n ≠ notif_id) →
  map (fun n => if Database.has_id notif_id n then f n else n) rows = rows.
Proof.
  induction rows as [|n rows IH]; intros Habs; cbn; [done|].
  rewrite IH by (intros n' Hn'; apply Habs; by right).
  unfold Database.has_id.
  destruct (Z.eqb_spec (NotificationID n) notif_id) as [Heq|_]; [|done].
  by destruct (Habs n ltac:(left)).
Qed.

Lemma select_present_cons notif_id (rows : list Notification) :
  present notif_id rows →
  ∃ row rest,
    filter (fun n => Database.has_id notif_id n = true) rows = row :: rest.
Proof.
  intros Hex. pose proof (select_present notif_id rows Hex) as Hlen.
  destruct (filter _ rows) as [|row rest]; [done|by eauto].
Qed.

(** Runs a handler in [H] over a store without faults. *)
Ltac run_calm_in H Hcalm :=
  unfold_handlers_in H; rewrite ?Hcalm in H;
  cbn -[ConnectionManager.broadcast] in H.

Ltac notify_in H :=
  match type of H with
  | context [router_manager ?w] =>
      unfold after_commit;
      destruct (router_manager w);
      [rewrite broadcast_run in H|]; cbn in H; by simplify_eq
  end.

Lemma create_notification_run env sale_id message w :
  db_calm env →
  let row := Database.inserted_row (db_now env) (table w) sale_id message in
  Notifications.create_notification env sale_id message w
  = (Returned (JObj [("message", JStr "Notification created successfully.");
                     ("data", Notifications.notification_data row)]),
     after_commit env (table w ++ [row])
                  (Notifications.new_notification_event row) w).
Proof.
  intros Hcalm row.
  destruct (Notifications.create_notification env sale_id message w)
    as [r w'] eqn:Hrun.
  run_calm_in Hrun Hcalm. notify_in Hrun.
Qed.

Lemma mark_as_read_run env notif_id w :
  db_calm env → present notif_id (table w) →
  Notifications.mark_as_read env notif_id w
  = (Returned (JObj [("message", JStr "Notification marked as read.")]),
     after_commit env
       (map (fun n => if Database.has_id notif_id n
                      then Database.set_read n else n) (table w))
       (Notifications.notification_read_event notif_id) w).
Proof.
  intros Hcalm Hex.
  destruct (select_present_cons _ _ Hex) as (row & rest & Hsel).
  destruct (Notifications.mark_as_read env notif_id w) as [r w'] eqn:Hrun.
  run_calm_in Hrun Hcalm. rewrite Hsel in Hrun.
  cbn -[ConnectionManager.broadcast] in Hrun. rewrite ?Hcalm in Hrun.
  cbn -[ConnectionManager.broadcast] in Hrun. notify_in Hrun.
Qed.

Lemma mark_as_done_run env notif_id w :
  db_calm env → present notif_id (table w) →
  Notifications.mark_as_done env notif_id w
  = (Returned (JObj [("message", JStr "Notification marked as done.")]),
     after_commit env
       (map (fun n => if Database.has_id notif_id n
                      then Database.set_done_read n else n) (table w))
       (Notifications.notification_done_event notif_id) w).
Proof.
  intros Hcalm Hex. pose proof (select_present _ _ Hex) as Hhit.
  destruct (Notifications.mark_as_done env notif_id w) as [r w'] eqn:Hrun.
  run_calm_in Hrun Hcalm.
  match type of Hrun with
  | context [Z.eqb ?a 0] => destruct (Z.eqb_spec a 0) as [Hzero|_]
  end; [by destruct Hhit|].
  cbn -[ConnectionManager.broadcast] in Hrun. notify_in Hrun.
Qed.

Lemma mark_as_done_run_absent env notif_id w :
  db_calm env → (∀ n, n ∈ table w → NotificationID n ≠ notif_id) →
  Notifications.mark_as_done env notif_id w
  = (Raised (HTTPException 404 "Notification not found."), set_session None w).
Proof.
  intros Hcalm Habs.
  destruct (Notifications.mark_as_done env notif_id w) as [r w'] eqn:Hrun.
  run_calm_in Hrun Hcalm.
  rewrite (select_absent _ _ Habs), (update_absent _ _ _ Habs) in Hrun.
  cbn in Hrun. simplify_eq. by destruct w.
Qed.

Lemma mark_all_as_read_run env w :
  db_calm env →
  Notifications.mark_all_as_read env w
  = (Returned (JObj [("message", JStr "All notifications marked as read.")]),
     after_commit env
       (map (fun n => if negb (IsRead n) then Database.set_read n else n) (table w))
       Notifications.notifications_read_all_event w).
Proof.
  intros Hcalm.
  destruct (Notifications.mark_all_as_read env w) as [r w'] eqn:Hrun.
  run_calm_in Hrun Hcalm. notify_in Hrun.
Qed.

Lemma after_commit_table env rows event w :
  table (after_commit env rows event w) = rows.
Proof. unfold after_commit. by destruct (router_manager w). Qed.

Lemma after_commit_emitted env rows event w :
  emitted (after_commit env rows event w)
  = if router_manager w then emitted w ++ [event] else emitted w.
Proof. unfold after_commit. by destruct (router_manager w). Qed.

Lemma lookup_map_row (f : Notification → Notification)
  (rows : list Notification) i :
  map f rows !! i = f <$> rows !! i.
Proof. apply (list_lookup_fmap f rows i). Qed.

(** X8: over a working store, with the manager injected, marking as read a
    notification the store has returns normally, sets [IsRead] on the rows
    with that id and changes nothing else of any row ([IsDone] stays), and
    emits the one event [notification_read] with [{NotificationID: id}]. *)
Theorem mark_as_read_existing (env : Env) (notif_id : Z) (w : World) :
  db_calm env →
  router_manager w = true →
  present notif_id (table w) →
  let r := Notifications.mark_as_read env notif_id w in
  fst r = Returned (JObj [("message", JStr "Notification marked as read.")])
  ∧ (∀ i n, table w !! i = Some n →
       table (snd r) !! i
       = Some (if NotificationID n =? notif_id
               then mkNotification (NotificationID n) (SaleID n) (Message n)
                                   (CreatedAt n) true (IsDone n)
               else n))
  ∧ length (table (snd r)) = length (table w)
  ∧ emitted (snd r)
    = emitted w ++ [JObj [("type", JStr "notification_read");
                          ("payload", JObj [("NotificationID", JInt notif_id)])]].
Proof.
  intros Hcalm Hmgr Hex r. subst r. rewrite mark_as_read_run by done.
  cbn [fst snd]. rewrite after_commit_table, after_commit_emitted, Hmgr.
  split; [done|]. split; [|split; [by rewrite length_map|done]].
  intros i n Hi. by rewrite lookup_map_row, Hi.
Qed.

Lemma mark_as_read_existing_witness :
  let r := Notifications.mark_as_read calm_env 2 three_row_world in
  fst r = Returned (JObj [("message", JStr "Notification marked as read.")])
  ∧ (∀ i n, table three_row_world !! i = Some n →
       table (snd r) !! i
       = Some (if NotificationID n =? 2
               then mkNotification (NotificationID n) (SaleID n) (Message n)
                                   (CreatedAt n) true (IsDone n)
               else n))
  ∧ length (table (snd r)) = length (table three_row_world)
  ∧ emitted (snd r)
    = emitted three_row_world
      ++ [JObj [("type", JStr "notification_read");
                ("payload", JObj [("NotificationID", JInt 2)])]].
Proof.
  apply mark_as_read_existing.
  - intros s. reflexivity.
  - reflexivity.
  - exists (mkNotification 2 (Some 8) "order placed" "2024-01-02T00:00:00"
                            false false).
    split; [|reflexivity]. cbn. apply list_elem_of_further, list_elem_of_here.
Defined.

(** X9: marking as done an id that no row has raises, emits nothing, sends
    nothing and leaves the table as it was, although the handler commits
    before it looks at the row count; over a working store what is raised is
    the 404 "not found". *)
Theorem mark_as_done_not_found (env : Env) (notif_id : Z) (w : World) :
  (∀ n, n ∈ table w → NotificationID n ≠ notif_id) →
  let r := Notifications.mark_as_done env notif_id w in
  (∃ e, fst r = Raised e)
  ∧ emitted (snd r) = emitted w
  ∧ wire (snd r) = wire w
  ∧ table (snd r) = table w
  ∧ (db_calm env → fst r = Raised (HTTPException 404 "Notification not found.")).
Proof.
  intros Habs r. subst r.
  destruct (Notifications.mark_as_done env notif_id w) as [r w'] eqn:Hrun.
  cbn [fst snd]. run_handler_in Hrun.
  all: rewrite ?(select_absent _ _ Habs), ?(update_absent _ _ _ Habs) in Hrun;
    cbn in Hrun; simpl in Hrun; simplify_eq.
  all: (split; [eexists; reflexivity|]); repeat (split; [reflexivity|]).
  all: intros Hcalm; try reflexivity.
  all: repeat match goal with
         | H : db_fault _ _ = Some _ |- _ => rewrite Hcalm in H; discriminate H
         end.
Qed.

Lemma mark_as_done_not_found_witness :
  let r := Notifications.mark_as_done calm_env 9 one_row_world in
  (∃ e, fst r = Raised e)
  ∧ emitted (snd r) = emitted one_row_world
  ∧ wire (snd r) = wire one_row_world
  ∧ table (snd r) = table one_row_world
  ∧ (db_calm calm_env → fst r = Raised (HTTPException 404 "Notification not found.")).
Proof.
  apply mark_as_done_not_found.
  intros n Hn. apply list_elem_of_singleton in Hn as ->. cbn. lia.
Defined.

(** X10: over a working store [mark_all_as_read] returns normally and leaves
    every row read: each row is as before but for [IsRead], which is true;
    no row is added, dropped or moved. *)
Theorem mark_all_as_read_marks_every_row (env : Env) (w : World) :
  db_calm env →
  let r := Notifications.mark_all_as_read env w in
  fst r = Returned (JObj [("message", JStr "All notifications marked as read.")])
  ∧ table (snd r)
    = map (fun n => mkNotification (NotificationID n) (SaleID n) (Message n)
                                   (CreatedAt n) true (IsDone n)) (table w).
Proof.
  intros Hcalm r. subst r. rewrite mark_all_as_read_run by done.
  cbn [fst snd]. rewrite after_commit_table. split; [done|].
  apply map_ext. intros [id sale msg at_ [|] done_]; reflexivity.
Qed.

Lemma mark_all_as_read_marks_every_row_witness :
  let r := Notifications.mark_all_as_read calm_env three_row_world in
  fst r = Returned (JObj [("message", JStr "All notifications marked as read.")])
  ∧ table (snd r)
    = map (fun n => mkNotification (NotificationID n) (SaleID n) (Message n)
                                   (CreatedAt n) true (IsDone n))
          (table three_row_world).
Proof. apply mark_all_as_read_marks_every_row. intros s. reflexivity. Defined.

(** X11: over a working store, with the manager injected, the record that
    [create_notification] returns to its caller is the payload of the
    [new_notification] event it emits and the row it appended to the table,
    and that row carries the sale id and the message of the request. *)
Theorem create_returns_the_broadcast_record (env : Env) (sale_id : Z)
  (message : string) (w : World) :
  db_calm env →
  router_manager w = true →
  let r := Notifications.create_notification env sale_id message w in
  ∃ row,
    fst r = Returned (JObj [("message", JStr "Notification created successfully.");
                            ("data", Notifications.notification_data row)])
    ∧ emitted (snd r)
      = emitted w ++ [JObj [("type", JStr "new_notification");
                            ("payload", Notifications.notification_data row)]]
    ∧ table (snd r) = table w ++ [row]
    ∧ SaleID row = Some sale_id
    ∧ Message row = message.
Proof.
  intros Hcalm Hmgr r. subst r. rewrite create_notification_run by done.
  cbn [fst snd]. rewrite after_commit_table, after_commit_emitted, Hmgr.
  eexists. repeat split; reflexivity.
Qed.

Lemma create_returns_the_broadcast_record_witness :
  let r := Notifications.create_notification calm_env 7 "order ready"
             one_row_world in
  ∃ row,
    fst r = Returned (JObj [("message", JStr "Notification created successfully.");
                            ("data", Notifications.notification_data row)])
    ∧ emitted (snd r)
      = emitted one_row_world
        ++ [JObj [("type", JStr "new_notification");
                  ("payload", Notifications.notification_data row)]]
    ∧ table (snd r) = table one_row_world ++ [row]
    ∧ SaleID row = Some 7
    ∧ Message row = "order ready".
Proof.
  apply create_returns_the_broadcast_record; [intros s; reflexivity|reflexivity].
Defined.

(** X12: when no manager was injected into the router, no producer emits an
    event, sends a frame or touches the registry, whatever the database
    does. *)
Theorem no_manager_no_event (env : Env) (p : Notifications.Producer) (w : World) :
  router_manager w = false →
  let r := Notifications.run_producer env p w in
  emitted (snd r) = emitted w
  ∧ wire (snd r) = wire w
  ∧ active_connections (snd r) = active_connections w.
Proof.
  intros Hmgr r. subst r.
  destruct (Notifications.run_producer env p w) as [r w'] eqn:Hrun.
  cbn [snd].
  destruct (producer_outcome _ _ _ _ _ Hrun)
    as [[_ Hq]|(_ & _ & [Hq|(Hmgr' & _)])].
  - by destruct Hq as (_ & ? & ? & ? & _).
  - by destruct Hq as (_ & ? & ? & ? & _).
  - congruence.
Qed.

Lemma no_manager_no_event_witness :
  let r := Notifications.run_producer calm_env (Notifications.MarkDone 1)
             (set_router_manager false one_row_world) in
  emitted (snd r) = emitted (set_router_manager false one_row_world)
  ∧ wire (snd r) = wire (set_router_manager false one_row_world)
  ∧ active_connections (snd r)
    = active_connections (set_router_manager false one_row_world).
Proof. apply no_manager_no_event. reflexivity. Defined.

Lemma present_or_absent notif_id (rows : list Notification) :
  present notif_id rows ∨ (∀ n, n ∈ rows → NotificationID n ≠ notif_id).
Proof.
  induction rows as [|n rows [Hex|Habs]].
  - right. intros n Hn. by apply elem_of_nil in Hn.
  - left. destruct Hex as (n' & Hin & Hid). exists n'. split; [by right|done].
  - destruct (decide (NotificationID n = notif_id)) as [Heq|Hne].
    + left. exists n. split; [by left|done].
    + right. intros n' [->|Hin]%elem_of_cons; [done|by apply Habs].
Qed.


Lemma after_commit_manager env rows event w :
  router_manager (after_commit env rows event w) = router_manager w.
Proof. unfold after_commit. by destruct (router_manager w) eqn:E. Qed.

Lemma done_rows_present notif_id (rows : list Notification) :
  present notif_id rows →
  present notif_id
    (map (fun n => if Database.has_id notif_id n
                   then Database.set_done_read n else n) rows).
Proof.
  intros (n & Hin & Hid). exists (Database.set_done_read n). split; [|done].
  apply list_elem_of_In, in_map_iff. exists n. split; [|by apply list_elem_of_In].
  unfold Database.has_id. by rewrite (proj2 (Z.eqb_eq _ _) Hid).
Qed.

Lemma done_rows_idempotent notif_id (rows : list Notification) :
  map (fun n => if Database.has_id notif_id n then Database.set_done_read n else n)
      (map (fun n => if Database.has_id notif_id n
                     then Database.set_done_read n else n) rows)
  = map (fun n => if Database.has_id notif_id n
                  then Database.set_done_read n else n) rows.
Proof.
  rewrite map_map. apply map_ext. intros n.
  destruct (Database.has_id notif_id n) eqn:E; [|by rewrite E].
  unfold Database.has_id in *. cbn. by rewrite E.
Qed.

(** X13: over a working store, with the manager injected, marking the same
    notification as done a second time succeeds again and emits the event
    again, and leaves the table as the first call left it. *)
Theorem mark_as_done_twice (env : Env) (notif_id : Z) (w : World) :
  db_calm env →
  router_manager w = true →
  present notif_id (table w) →
  let w1 := snd (Notifications.mark_as_done env notif_id w) in
  let r2 := Notifications.mark_as_done env notif_id w1 in
  fst r2 = Returned (JObj [("message", JStr "Notification marked as done.")])
  ∧ table (snd r2) = table w1
  ∧ emitted (snd r2)
    = emitted w ++ [Notifications.notification_done_event notif_id;
                    Notifications.notification_done_event notif_id].
Proof.
  intros Hcalm Hmgr Hex w1 r2. subst r2 w1.
  rewrite (mark_as_done_run env notif_id w) by done. cbn [snd].
  rewrite mark_as_done_run;
    [|done|rewrite after_commit_table; by apply done_rows_present].
  cbn [fst snd].
  rewrite !after_commit_table, !after_commit_emitted, after_commit_manager, Hmgr.
  split; [done|]. split; [apply done_rows_idempotent|by rewrite <- app_assoc].
Qed.

Lemma mark_as_done_twice_witness :
  let w1 := snd (Notifications.mark_as_done calm_env 1 one_row_world) in
  let r2 := Notifications.mark_as_done calm_env 1 w1 in
  fst r2 = Returned (JObj [("message", JStr "Notification marked as done.")])
  ∧ table (snd r2) = table w1
  ∧ emitted (snd r2)
    = emitted one_row_world ++ [Notifications.notification_done_event 1;
                                Notifications.notification_done_event 1].
Proof.
  apply mark_as_done_twice.
  - intros s. reflexivity.
  - reflexivity.
  - eexists. split; [apply list_elem_of_here|reflexivity].
Defined.

(** X14: over a working store, after [mark_as_done] of an id the listing
    shows no notification with that id, whether the id was in the store or
    not. *)
Theorem done_is_not_listed (env : Env) (notif_id : Z) (w : World) :
  db_calm env →
  let w1 := snd (Notifications.mark_as_done env notif_id w) in
  ∃ dicts,
    fst (Listing.get_notifications env None w1) = Returned dicts
    ∧ ∀ d, d ∈ dicts → json_get "NotificationID" d ≠ Some (JInt notif_id).
Proof.
  intros Hcalm w1. rewrite get_notifications_run by done. cbn [fst].
  eexists. split; [done|].
  intros d (n & -> & [Hopen Hin]%elem_of_select_active)%list_elem_of_fmap.
  cbn. intros Hid. simplify_eq. subst w1.
  destruct (present_or_absent (NotificationID n) (table w)) as [Hex|Habs].
  - rewrite mark_as_done_run in Hin by done. cbn [snd] in Hin.
    rewrite after_commit_table in Hin.
    destruct (update_done_flags _ _ _ Hin eq_refl) as [Hdone _]. congruence.
  - rewrite mark_as_done_run_absent in Hin by done. cbn in Hin.
    by apply Habs in Hin.
Qed.

Lemma done_is_not_listed_witness :
  let w1 := snd (Notifications.mark_as_done calm_env 2 three_row_world) in
  ∃ dicts,
    fst (Listing.get_notifications calm_env None w1) = Returned dicts
    ∧ ∀ d, d ∈ dicts → json_get "NotificationID" d ≠ Some (JInt 2).
Proof. apply done_is_not_listed. intros s. reflexivity. Defined.

(** X15: over a working store, after [mark_all_as_read] every notification
    the listing shows is read. *)
Theorem all_read_are_listed_read (env : Env) (w : World) :
  db_calm env →
  let w1 := snd (Notifications.mark_all_as_read env w) in
  ∃ dicts,
    fst (Listing.get_notifications env None w1) = Returned dicts
    ∧ ∀ d, d ∈ dicts → json_get "IsRead" d = Some (JBool true).
Proof.
  intros Hcalm w1. rewrite get_notifications_run by done. cbn [fst].
  eexists. split; [done|].
  intros d (n & -> & [_ Hin]%elem_of_select_active)%list_elem_of_fmap.
  cbn. subst w1. rewrite mark_all_as_read_run in Hin by done. cbn [snd] in Hin.
  rewrite after_commit_table in Hin.
  apply list_elem_of_In, in_map_iff in Hin as (n0 & <- & _).
  by destruct n0 as [? ? ? ? [|] ?].
Qed.

Lemma all_read_are_listed_read_witness :
  let w1 := snd (Notifications.mark_all_as_read calm_env three_row_world) in
  ∃ dicts,
    fst (Listing.get_notifications calm_env None w1) = Returned dicts
    ∧ ∀ d, d ∈ dicts → json_get "IsRead" d = Some (JBool true).
Proof. apply all_read_are_listed_read. intros s. reflexivity. Defined.



(** ** The e-mail router *)

(** X17: the look-up of an address never raises and asks the auth service
    at most once, with the caller's token: not at all without a token or
    without both an id and a name, by id when the id is given and is not 0,
    by name otherwise; and it finds an address only in a reply with status
    200. *)
Theorem fetch_user_email_asks_once (mail : Email.MailEnv) (user_id : option Z)
  (username auth_token : string) (trace : list Email.Effect) :
  ∃ found calls,
    Email.fetch_user_email mail user_id username auth_token trace
    = (Returned found, trace ++ calls)
    ∧ (if negb (Py.str_truthy auth_token)
          || negb (Email.int_truthy user_id) && negb (Py.str_truthy username)
       then calls = [] ∧ found = None
       else ∃ q, calls = [Email.AuthGet q auth_token]
                 ∧ (∀ n, user_id = Some n → n ≠ 0 → q = Email.ById n)
                 ∧ (user_id = None ∨ user_id = Some 0 →
                    q = Email.ByUsername username)
                 ∧ (∀ email, found = Some email →
                      Email.auth_get mail q auth_token
                      = Email.HttpResponse 200 (Some email))).
Proof.
  unfold Email.fetch_user_email.
  destruct (negb (Py.str_truthy auth_token)) eqn:Htok; cbn [orb].
  { exists None, []. by rewrite app_nil_r. }
  destruct (negb (Email.int_truthy user_id) && negb (Py.str_truthy username))
    eqn:Hwho.
  { exists None, []. by rewrite app_nil_r. }
  unfold bind, Email.perform, modify, ret.
  set (q := match user_id with
            | Some n => if n =? 0 then Email.ByUsername username else Email.ById n
            | None => Email.ByUsername username
            end).
  assert (Hid : ∀ n, user_id = Some n → n ≠ 0 → q = Email.ById n).
  { intros n -> Hn. subst q. by destruct (Z.eqb_spec n 0). }
  assert (Hname : user_id = None ∨ user_id = Some 0 →
                  q = Email.ByUsername username).
  { intros [->| ->]; done. }
  destruct (Email.auth_get mail q auth_token) as [code email| |msg] eqn:Hreply;
    [destruct (Z.eqb_spec code 200) as [->|Hcode]|..].
  - exists email, [Email.AuthGet q auth_token]. split; [done|].
    exists q. repeat split; try done. by intros e [= ->].
  - exists None, [Email.AuthGet q auth_token]. split; [done|].
    exists q. repeat split; done.
  - exists None, [Email.AuthGet q auth_token]. split; [done|].
    exists q. repeat split; done.
  - exists None, [Email.AuthGet q auth_token]. split; [done|].
    exists q. repeat split; done.
Qed.

Lemma send_email_run (mail : Email.MailEnv)
  (to_email subject html_content : string) (trace : list Email.Effect) :
  Email.send_email mail to_email subject html_content trace
  = if Py.str_truthy (Email.SENDER_EMAIL mail)
       && Py.str_truthy (Email.SENDER_PASSWORD mail)
    then (Returned (bool_decide
                      (Email.smtp_send mail to_email subject html_content = None)),
          trace ++ [Email.SmtpSend to_email subject html_content])
    else (Returned false, trace).
Proof.
  unfold Email.send_email.
  destruct (Py.str_truthy (Email.SENDER_EMAIL mail)),
    (Py.str_truthy (Email.SENDER_PASSWORD mail)); cbn; try done.
  unfold bind, Email.perform, modify, ret.
  by destruct (Email.smtp_send mail to_email subject html_content).
Qed.

(** X18: sending a mail never raises; it answers [True] only when the
    sender's address and password are set and the SMTP send went through;
    and when one of the two is not set it does not reach for SMTP at all. *)
Theorem send_email_reports_delivery (mail : Email.MailEnv)
  (to_email subject html_content : string) (trace : list Email.Effect) :
  ∃ sent calls,
    Email.send_email mail to_email subject html_content trace
    = (Returned sent, trace ++ calls)
    ∧ (sent = true →
         Py.str_truthy (Email.SENDER_EMAIL mail) = true
         ∧ Py.str_truthy (Email.SENDER_PASSWORD mail) = true
         ∧ Email.smtp_send mail to_email subject html_content = None
         ∧ calls = [Email.SmtpSend to_email subject html_content])
    ∧ (Py.str_truthy (Email.SENDER_EMAIL mail) = false
       ∨ Py.str_truthy (Email.SENDER_PASSWORD mail) = false →
       sent = false ∧ calls = []).
Proof.
  rewrite send_email_run.
  destruct (Py.str_truthy (Email.SENDER_EMAIL mail)),
    (Py.str_truthy (Email.SENDER_PASSWORD mail)); cbn [andb].
  2-4: exists false, []; rewrite app_nil_r; split; [done|]; split; [done|by intros _].
  eexists _, _. split; [done|]. split; [|by intros [?|?]].
  intros Hsent%bool_decide_eq_true. done.
Qed.

Lemma fetch_user_email_returns mail user_id username auth_token trace :
  ∃ found calls,
    Email.fetch_user_email mail user_id username auth_token trace
    = (Returned found, trace ++ calls)
    ∧ Forall (fun c => is_smtp_send c = false) calls
    ∧ (∀ email, found = Some email →
         ∃ q, Email.auth_get mail q auth_token
              = Email.HttpResponse 200 (Some email)).
Proof.
  unfold Email.fetch_user_email.
  destruct (negb (Py.str_truthy auth_token)).
  { exists None, []. by rewrite app_nil_r. }
  destruct (negb (Email.int_truthy user_id) && negb (Py.str_truthy username)).
  { exists None, []. by rewrite app_nil_r. }
  unfold bind, Email.perform, modify, ret.
  destruct (Email.auth_get mail _ auth_token) as [code email| |msg] eqn:Hreply;
    [destruct (Z.eqb_spec code 200) as [->|?]|..]; eexists _, [_];
    (split; [done|]); (split; [by repeat constructor|]); try done.
  intros e ->. eauto.
Qed.

Lemma add_items_raises_overflow items acc e :
  Email.add_items acc items = Raised e →
  e = PyException "int too large to convert to float".
Proof.
  revert acc. induction items as [|item items IH]; intros acc Hrun; [done|].
  cbn [Email.add_items] in Hrun. unfold Email.add_item, Py.float_of_int in Hrun.
  destruct (is_infinity _); [by simplify_eq|by eapply IH].
Qed.

Lemma breakdown_raises_overflow data e :
  Email.calculate_order_breakdown data = Raised e →
  e = PyException "int too large to convert to float".
Proof.
  unfold Email.calculate_order_breakdown. intros Hrun.
  destruct (Email.add_items _ _) as [acc|e'] eqn:Hloop; [done|].
  simplify_eq. by eapply add_items_raises_overflow.
Qed.

Ltac unfold_endpoints :=
  unfold Email.send_order_accepted_email, Email.send_order_update_email,
    Email.create_order_accepted_email, Email.create_order_update_email,
    Email.lift, Email.reraise_http, Email.unauthorized,
    try_except, bind, ret, raise.

(** The address of an endpoint: given in the request, or looked up. *)
Ltac resolve_address :=
  match goal with
  | |- context [Py.opt_truthy (EmailNotificationRequest.customer_email ?r)] =>
      let Hgiven := fresh "Hgiven" in
      let Hce := fresh "Hce" in
      let addr := fresh "addr" in
      destruct (Py.opt_truthy (EmailNotificationRequest.customer_email r))
        eqn:Hgiven;
      [ destruct (EmailNotificationRequest.customer_email r) as [addr|] eqn:Hce;
        [cbn in Hgiven; rewrite Hgiven | discriminate Hgiven]
      | match goal with
        | |- context [Email.fetch_user_email ?m ?i ?n ?t ?tr] =>
            let found := fresh "found" in
            let calls := fresh "calls" in
            let Hlookup := fresh "Hlookup" in
            let Hcalls := fresh "Hcalls" in
            let Hfound := fresh "Hfound" in
            let Haddr := fresh "Haddr" in
            destruct (fetch_user_email_returns m i n t tr)
              as (found & calls & Hlookup & Hcalls & Hfound);
            rewrite Hlookup;
            destruct found as [addr|];
            [destruct (Py.str_truthy addr) eqn:Haddr|]
        end ]
  end.

(** The breakdown, the template and the send, once the address is known. *)
Ltac deliver :=
  match goal with
  | |- context [Email.calculate_order_breakdown ?d] =>
      let Hb := fresh "Hb" in
      let b := fresh "b" in
      let e := fresh "e" in
      let Hcreds := fresh "Hcreds" in
      let Hsmtp := fresh "Hsmtp" in
      destruct (Email.calculate_order_breakdown d) as [b|e] eqn:Hb;
      [ rewrite send_email_run;
        destruct (Py.str_truthy (Email.SENDER_EMAIL _)
                  && Py.str_truthy (Email.SENDER_PASSWORD _)) eqn:Hcreds;
        [ match goal with
          | |- context [bool_decide ?P] => destruct (bool_decide P) eqn:Hsmtp
          end
        | ]
      | apply breakdown_raises_overflow in Hb; subst e ]
  end.

(** X19: whatever the header, the request and the collaborators do, an
    e-mail endpoint answers or raises an [HTTPException] with status 401 or
    500; no other exception gets out. *)
Theorem email_endpoints_raise_only_http (mail : Email.MailEnv)
  (request : EmailNotificationRequest.t) (authorization : option string)
  (trace : list Email.Effect) :
  answer_or_http_error
    (fst (Email.send_order_accepted_email mail request authorization trace))
  ∧ answer_or_http_error
      (fst (Email.send_order_update_email mail request authorization trace)).
Proof.
  split; unfold_endpoints.
  all: destruct (Email.bad_authorization authorization); [cbn; by left|].
  all: resolve_address; try deliver; cbn; auto.
Qed.

(** X20: with an accepted header and a [customer_email] in the request, the
    endpoints never ask the auth service; any mail they send goes to that
    address; and when they return normally it is with [success: true] and
    that address. *)
Theorem given_address_is_used (mail : Email.MailEnv)
  (request : EmailNotificationRequest.t) (authorization : option string)
  (addr : string) (trace : list Email.Effect) :
  Email.bad_authorization authorization = false →
  EmailNotificationRequest.customer_email request = Some addr →
  Py.str_truthy addr = true →
  served_address addr trace
    (Email.send_order_accepted_email mail request authorization trace)
  ∧ served_address addr trace
      (Email.send_order_update_email mail request authorization trace).
Proof.
  intros Hauth Hce Haddr. unfold served_address.
  split; unfold_endpoints; rewrite Hauth.
  all: resolve_address;
    [|unfold Py.opt_truthy in *; rewrite Hce in *; congruence..].
  all: simplify_eq; deliver; cbn.
  all: split; [|intros j [= <-]; by cbn].
  all: first
    [ exists []; split; [by rewrite app_nil_r|]; intros c Hc;
      by apply elem_of_nil in Hc
    | eexists [_]; split; [done|]; intros c ->%list_elem_of_singleton; eauto ].
Qed.

Lemma given_address_is_used_witness :
  served_address "ana@example.com" []
    (Email.send_order_accepted_email calm_mail delivery_request
       (Some "Bearer token") [])
  ∧ served_address "ana@example.com" []
      (Email.send_order_update_email calm_mail delivery_request
         (Some "Bearer token") []).
Proof.
  exact (given_address_is_used calm_mail delivery_request (Some "Bearer token")
           "ana@example.com" [] eq_refl eq_refl eq_refl).
Defined.

(** X21: with an accepted header, no [customer_email] in the request and an
    auth service that yields no address, both endpoints answer normally with
    [success: false] and send no mail. *)
Theorem unknown_customer_gets_no_mail (mail : Email.MailEnv)
  (request : EmailNotificationRequest.t) (authorization : option string)
  (trace : list Email.Effect) :
  Email.bad_authorization authorization = false →
  Py.opt_truthy (EmailNotificationRequest.customer_email request) = false →
  (∀ q token email,
     Email.auth_get mail q token = Email.HttpResponse 200 (Some email) →
     email = "") →
  (∃ calls,
     Email.send_order_accepted_email mail request authorization trace
     = (Returned (no_email_accepted request), trace ++ calls)
     ∧ Forall (fun c => is_smtp_send c = false) calls)
  ∧ (∃ calls,
       Email.send_order_update_email mail request authorization trace
       = (Returned (no_email_update request), trace ++ calls)
       ∧ Forall (fun c => is_smtp_send c = false) calls).
Proof.
  intros Hauth Hnone Hunknown.
  split; unfold_endpoints; rewrite Hauth.
  all: resolve_address; [congruence..| | |].
  all: try (destruct (Hfound _ eq_refl) as [q Hq]; apply Hunknown in Hq;
            subst; discriminate).
  all: by eexists.
Qed.

Lemma unknown_customer_gets_no_mail_witness :
  (∃ calls,
     Email.send_order_accepted_email unknown_mail anonymous_request
       (Some "Bearer token") []
     = (Returned (no_email_accepted anonymous_request), [] ++ calls)
     ∧ Forall (fun c => is_smtp_send c = false) calls)
  ∧ (∃ calls,
       Email.send_order_update_email unknown_mail anonymous_request
         (Some "Bearer token") []
       = (Returned (no_email_update anonymous_request), [] ++ calls)
       ∧ Forall (fun c => is_smtp_send c = false) calls).
Proof.
  apply unknown_customer_gets_no_mail; [reflexivity|reflexivity|].
  intros q token email H. discriminate H.
Defined.

Lemma add_items_overflow items acc :
  (∃ item, item ∈ items
           ∧ is_infinity (Py.nearest_float (OrderItem.quantity item)) = true) →
  Email.add_items acc items
  = Raised (PyException "int too large to convert to float").
Proof.
  revert acc. induction items as [|item items IH]; intros acc (bad & Hin & Hinf).
  - by apply elem_of_nil in Hin.
  - cbn [Email.add_items]. unfold Email.add_item, Py.float_of_int.
    destruct (is_infinity (Py.nearest_float (OrderItem.quantity item))) eqn:E;
      [done|].
    apply IH. exists bad. split; [|done].
    apply elem_of_cons in Hin as [->|Hin]; [congruence|done].
Qed.

(** X22: an order with a quantity too large for a float makes both
    endpoints raise a 500 that names the overflow, once the header is
    accepted and the address known; no mail is sent. *)
Theorem oversized_quantity_is_a_500 (mail : Email.MailEnv)
  (request : EmailNotificationRequest.t) (authorization : option string)
  (addr : string) (trace : list Email.Effect) :
  Email.bad_authorization authorization = false →
  EmailNotificationRequest.customer_email request = Some addr →
  Py.str_truthy addr = true →
  (∃ item, item ∈ EmailNotificationRequest.items request
           ∧ is_infinity (Py.nearest_float (OrderItem.quantity item)) = true) →
  Email.send_order_accepted_email mail request authorization trace
  = (Raised (HTTPException 500
               "Failed to send email: int too large to convert to float"), trace)
  ∧ Email.send_order_update_email mail request authorization trace
    = (Raised (HTTPException 500
                 "Failed to send email: int too large to convert to float"), trace).
Proof.
  intros Hauth Hce Haddr Hbig.
  assert (Hb : Email.calculate_order_breakdown request
               = Raised (PyException "int too large to convert to float")).
  { unfold Email.calculate_order_breakdown. by rewrite add_items_overflow. }
  split; unfold_endpoints; rewrite Hauth.
  all: rewrite Hce, Hb; cbn [Py.opt_truthy]; rewrite Haddr; cbv beta iota;
    rewrite ?Haddr; reflexivity.
Qed.

Lemma oversized_quantity_is_a_500_witness :
  Email.send_order_accepted_email calm_mail huge_request (Some "Bearer token") []
  = (Raised (HTTPException 500
               "Failed to send email: int too large to convert to float"), [])
  ∧ Email.send_order_update_email calm_mail huge_request (Some "Bearer token") []
    = (Raised (HTTPException 500
                 "Failed to send email: int too large to convert to float"), []).
Proof.
  apply (oversized_quantity_is_a_500 calm_mail huge_request
           (Some "Bearer token") "ana@example.com" []); try reflexivity.
  eexists. split; [apply list_elem_of_here|]. vm_compute. reflexivity.
Defined.

Lemma replace_without_occurrence (s : string) :
  occurs "Bearer " s = false → Py.replace_from "Bearer " "" 0 s = s.
Proof.
  induction s as [|c s IH]; intros Hno; [done|].
  cbn [occurs] in Hno. apply orb_false_iff in Hno as [Hhere Hrest].
  cbn [Py.replace_from]. rewrite Hhere. f_equal. by apply IH.
Qed.

Lemma bearer_token (token : string) :
  occurs "Bearer " token = false →
  Py.replace "Bearer " "" ("Bearer " +:+ token) = token.
Proof.
  intros Hno. unfold Py.replace. simpl.
  change ("" +:+ token) with token.
  replace (String.prefix "" token) with true by (by destruct token).
  rewrite replace_without_occurrence by done. reflexivity.
Qed.

Lemma bearer_header_accepted (token : string) :
  Email.bad_authorization (Some ("Bearer " +:+ token)) = false.
Proof.
  unfold Email.bad_authorization, Py.startswith. simpl.
  change ("" +:+ token) with token. by destruct token.
Qed.

(** X23: from a header "Bearer <token>" whose token does not hold the text
    "Bearer " itself, the endpoints take the token as it is: when the request
    has no address, the first thing they do is ask the auth service with
    that token. *)
Theorem bearer_token_is_passed_on (mail : Email.MailEnv)
  (request : EmailNotificationRequest.t) (token : string)
  (trace : list Email.Effect) :
  occurs "Bearer " token = false →
  Py.str_truthy token = true →
  Py.opt_truthy (EmailNotificationRequest.customer_email request) = false →
  Py.str_truthy (EmailNotificationRequest.customer_name request) = true →
  (∃ q rest,
     snd (Email.send_order_accepted_email mail request
            (Some ("Bearer " +:+ token)) trace)
     = trace ++ Email.AuthGet q token :: rest)
  ∧ (∃ q rest,
       snd (Email.send_order_update_email mail request
              (Some ("Bearer " +:+ token)) trace)
       = trace ++ Email.AuthGet q token :: rest).
Proof.
  intros Hno Htok Hnone Hname.
  assert (Hlookup : ∃ q found,
            Email.fetch_user_email mail
              (EmailNotificationRequest.customer_id request)
              (EmailNotificationRequest.customer_name request) token trace
            = (Returned found, trace ++ [Email.AuthGet q token])).
  { unfold Email.fetch_user_email. rewrite Htok, Hname, andb_false_r. cbn [negb].
    unfold bind, Email.perform, modify, ret.
    destruct (Email.auth_get mail _ token) as [code email| |msg];
      [destruct (code =? 200)|..]; by eexists _, _. }
  destruct Hlookup as (q & found & Hlookup).
  split; unfold_endpoints.
  all: rewrite bearer_header_accepted.
  all: change (default "" (Some ("Bearer " +:+ token)))
         with ("Bearer " +:+ token);
    rewrite (bearer_token token Hno), Hnone, Hlookup.
  all: destruct found as [addr|]; [destruct (Py.str_truthy addr)|];
    try deliver; cbn; rewrite <- ?app_assoc; by eexists _, _.
Qed.

Lemma bearer_token_is_passed_on_witness :
  (∃ q rest,
     snd (Email.send_order_accepted_email calm_mail anonymous_request
            (Some ("Bearer " +:+ "abc.def")) [])
     = [] ++ Email.AuthGet q "abc.def" :: rest)
  ∧ (∃ q rest,
       snd (Email.send_order_update_email calm_mail anonymous_request
              (Some ("Bearer " +:+ "abc.def")) [])
       = [] ++ Email.AuthGet q "abc.def" :: rest).
Proof. apply bearer_token_is_passed_on; reflexivity. Defined.

(** X24: the header "Bearer " with nothing after it passes the check; with
    no address in the request the endpoints then answer [success: false]
    without asking the auth service or sending a mail. *)
Theorem bare_bearer_header (mail : Email.MailEnv)
  (request : EmailNotificationRequest.t) (trace : list Email.Effect) :
  Py.opt_truthy (EmailNotificationRequest.customer_email request) = false →
  Email.send_order_accepted_email mail request (Some "Bearer ") trace
  = (Returned (no_email_accepted request), trace)
  ∧ Email.send_order_update_email mail request (Some "Bearer ") trace
    = (Returned (no_email_update request), trace).
Proof.
  intros Hnone. split; unfold_endpoints; cbn [Email.bad_authorization]; cbn.
  all: by rewrite Hnone.
Qed.

Lemma bare_bearer_header_witness :
  Email.send_order_accepted_email calm_mail anonymous_request (Some "Bearer ") []
  = (Returned (no_email_accepted anonymous_request), [])
  ∧ Email.send_order_update_email calm_mail anonymous_request (Some "Bearer ") []
    = (Returned (no_email_update anonymous_request), []).
Proof. apply bare_bearer_header. reflexivity. Defined.

(** X25: an order without items costs its delivery fee: with no fee in the
    request the three sums are 0.0 and the total is 50.0 for a delivery and
    0.0 for anything else. *)
Theorem empty_order_costs_the_fee (data : EmailNotificationRequest.t) :
  EmailNotificationRequest.items data = [] →
  EmailNotificationRequest.delivery_fee data = None →
  Email.calculate_order_breakdown data
  = Returned
      (if equal_ignoring_case (EmailNotificationRequest.order_type data) "delivery"
       then Breakdown.mk 0%float 0%float 0%float 50%float 50%float true
       else Breakdown.mk 0%float 0%float 0%float 0%float 0%float false).
Proof.
  intros Hitems Hfee. unfold Email.calculate_order_breakdown.
  rewrite Hitems, Hfee, is_delivery_ignoring_case. cbn [Email.add_items].
  by destruct (equal_ignoring_case _ _).
Qed.

Lemma empty_order_costs_the_fee_witness :
  Email.calculate_order_breakdown empty_request
  = Returned (Breakdown.mk 0%float 0%float 0%float 50%float 50%float true).
Proof. exact (empty_order_costs_the_fee empty_request eq_refl eq_refl). Defined.
